(** * The W&B logging facade of [src/utils/log.py]

    A shallow embedding of the module [log.py] (class [WandbLogger] and its
    four free functions) together with the part of its environment that the
    module drives: Python values and exceptions, POSIX path strings, a local
    file system of regular files, directories and symbolic links, the wall
    clock, and the tracking service reached through the [wandb] client.

    Layout: Part I holds the definitions, in the order environment first and
    the module's own functions last; Part II holds the lemmas and the
    properties of the facade. *)

From Stdlib Require Import Ascii Floats.
From stdpp Require Import gmap strings list fin_maps pretty sorting.

(* The float literal [0.42] below is read as the nearest binary64 value, as
   Python reads it; the types nested through [gmap] need no extra scheme. *)
Set Warnings "-inexact-float,-register-all".

(* ===================================================================== *)
(** * Part I. Definitions                                                 *)
(* ===================================================================== *)

(** ** Python values and exceptions *)

(** The values a configuration mapping or a metric record can hold.  A
    [dict] with string keys is a finite map; floats are binary64. *)
Inductive pyval :=
  | PyNone
  | PyBool (b : bool)
  | PyInt (z : Z)
  | PyFloat (f : float)
  | PyStr (s : string)
  | PyDict (d : gmap string pyval).

(** The exception classes that the module or the calls it makes can raise. *)
Inductive exn :=
  | KeyError (key : string)
  | TypeError
  | AttributeError
  | StopIteration
  | FileNotFoundError
  | FileExistsError
  | NotADirectoryError
  | IsADirectoryError
  | OSError
  | ValueError
  | OtherError (name : string).

(** ** Strings as Python and [posixpath] use them *)

Module PyString.

Definition sep : ascii := "/"%char.

Definition is_sep (a : ascii) : bool := Ascii.eqb a sep.

(** [s.startswith("/")] *)
Definition startswith_sep (s : string) : bool :=
  match s with
  | String a _ => is_sep a
  | EmptyString => false
  end.

(** [s.endswith("/")] *)
Fixpoint endswith_sep (s : string) : bool :=
  match s with
  | EmptyString => false
  | String a EmptyString => is_sep a
  | String _ s' => endswith_sep s'
  end.

(** ["/" in s] *)
Fixpoint has_sep (s : string) : bool :=
  match s with
  | EmptyString => false
  | String a s' => is_sep a || has_sep s'
  end.

(** [s == "/" * len(s)] *)
Fixpoint all_sep (s : string) : bool :=
  match s with
  | EmptyString => true
  | String a s' => is_sep a && all_sep s'
  end.

(** [s.rstrip("/")] *)
Fixpoint rstrip_sep (s : string) : string :=
  match s with
  | EmptyString => EmptyString
  | String a s' =>
      match rstrip_sep s' with
      | EmptyString => if is_sep a then EmptyString else String a EmptyString
      | r => String a r
      end
  end.

(** The slice [s[n:]]. *)
Fixpoint slice_from (n : nat) (s : string) : string :=
  match n, s with
  | O, _ => s
  | S n', String _ s' => slice_from n' s'
  | S _, EmptyString => EmptyString
  end.

(** [s.split("/")]: the components between separators, empty ones kept. *)
Fixpoint split_sep (s : string) : list string :=
  match s with
  | EmptyString => [EmptyString]
  | String a s' =>
      if is_sep a then EmptyString :: split_sep s'
      else match split_sep s' with
           | c :: cs => String a c :: cs
           | [] => [String a EmptyString]
           end
  end.

(** The pair [(s[:i], s[i:])] for [i = s.rfind("/") + 1]: the text up to
    and including the last separator, and the text after it. *)
Fixpoint cut_last_sep (s : string) : string * string :=
  match s with
  | EmptyString => (EmptyString, EmptyString)
  | String a s' =>
      if has_sep s' then
        let '(h, t) := cut_last_sep s' in (String a h, t)
      else if is_sep a then (String a EmptyString, s')
      else (EmptyString, s)
  end.

(** Insertion into a list sorted in code-point order. *)
Fixpoint insert_sorted (x : string) (l : list string) : list string :=
  match l with
  | [] => [x]
  | y :: l' => if String.leb x y then x :: l else y :: insert_sorted x l'
  end.

(** [list.sort()] on a list of strings (code-point order). *)
Definition sort (l : list string) : list string :=
  foldr insert_sorted [] l.

(** Two-digit, zero-padded decimal ([%d], [%m], [%H], [%M], [%S]). *)
Definition pad2 (n : nat) : string :=
  if decide (n < 10) then "0" +:+ pretty n else pretty n.

End PyString.

(** [posixpath]: the functions of [os.path] on a POSIX system, transcribed
    from the standard library's [posixpath.py]. *)
Module PosixPath.
Import PyString.

(** One iteration of the loop of [join(a, *p)] over a further component [b]:
    an absolute [b] restarts the path, otherwise [b] is appended with one
    separator unless [path] is empty or already ends with one. *)
Definition join_step (path b : string) : string :=
  if startswith_sep b then b
  else if bool_decide (path = "") || endswith_sep path then path +:+ b
  else path +:+ "/" +:+ b.

Definition join (a : string) (p : list string) : string :=
  foldl join_step a p.

(** [split(p)]: head and tail around the last separator; trailing
    separators are stripped from a head that is not all separators. *)
Definition split (p : string) : string * string :=
  let '(head, tail) := cut_last_sep p in
  if negb (bool_decide (head = "")) && negb (all_sep head)
  then (rstrip_sep head, tail)
  else (head, tail).

End PosixPath.


(** ** The local file system

    A tree of regular files, directories and symbolic links.  File contents,
    permissions, name-length limits and special files are outside the model;
    every operation below is the POSIX behaviour of the call of that name on
    such a tree. *)
Module FS.
Import PyString.

Inductive node :=
  | File
  | Symlink (target : string)
  | Dir (entries : gmap string node).

(** The state that path names are resolved in: the tree and the working
    directory (a canonical path: the names from the root down). *)
Record fs := { root : node; cwd : list string }.

Definition set_root (s : fs) (r : node) : fs := {| root := r; cwd := cwd s |}.

(** The object at a canonical path, descending through real directories. *)
Fixpoint get (n : node) (p : list string) : option node :=
  match p with
  | [] => Some n
  | c :: p' =>
      match n with
      | Dir es => es !! c ≫= λ n', get n' p'
      | _ => None
      end
  end.

(** Apply [g] to the entries of the directory at canonical path [p]; a tree
    without a directory there is left as it is. *)
Fixpoint modify_dir (g : gmap string node → gmap string node)
    (p : list string) (n : node) : node :=
  match n with
  | Dir es =>
      match p with
      | [] => Dir (g es)
      | c :: p' => Dir (alter (modify_dir g p') c es)
      end
  | _ => n
  end.

Inductive errno := ENOENT | ENOTDIR | ELOOP.

Definition exn_of_errno (e : errno) : exn :=
  match e with
  | ENOENT => FileNotFoundError
  | ENOTDIR => NotADirectoryError
  | ELOOP => OSError
  end.

(** What a path name resolves to: an existing object and its canonical
    location, a free name in an existing directory, or an error. *)
Inductive resolved :=
  | Entry (loc : list string) (n : node)
  | Vacant (parent : list string) (name : string)
  | Failed (e : errno).

Definition all_empty (cs : list string) : bool :=
  forallb (λ c, bool_decide (c = "")) cs.

(** Resolution of the components [comps] from the directory [cur].  Empty
    components and ["."] stay, [".."] goes to the parent (the root is its
    own parent).  A symbolic link met before the last component, or at the
    last one when [follow] is set, is handed to [on_link] with the directory
    holding it, its target and the components still to resolve. *)
Fixpoint descend (on_link : list string → string → list string → resolved)
    (r : node) (follow : bool) (cur comps : list string) : resolved :=
  match comps with
  | [] =>
      match get r cur with
      | Some n => Entry cur n
      | None => Failed ENOENT
      end
  | c :: rest =>
      match get r cur with
      | Some (Dir es) =>
          if bool_decide (c = "") || bool_decide (c = ".") then
            descend on_link r follow cur rest
          else if bool_decide (c = "..") then
            descend on_link r follow (removelast cur) rest
          else
            match es !! c with
            | None => if all_empty rest then Vacant cur c else Failed ENOENT
            | Some (Symlink t) =>
                if follow || negb (bool_decide (rest = [])) then on_link cur t rest
                else Entry (cur ++ [c]) (Symlink t)
            | Some _ => descend on_link r follow (cur ++ [c]) rest
            end
      | Some _ => Failed ENOTDIR
      | None => Failed ENOENT
      end
  end.

(** Resolution with at most [links] symbolic links followed; one more is
    [ELOOP].  An absolute target restarts at the root, an empty one does not
    resolve. *)
Fixpoint resolve_from (links : nat) (r : node) (follow : bool)
    (cur comps : list string) : resolved :=
  descend
    (λ dir t rest,
       match links with
       | O => Failed ELOOP
       | S k =>
           if bool_decide (t = "") then Failed ENOENT
           else resolve_from k r follow
                  (if startswith_sep t then [] else dir) (split_sep t ++ rest)
       end)
    r follow cur comps.

(** Linux follows at most 40 symbolic links in one resolution. *)
Definition MAXSYMLINKS : nat := 40.

Definition resolve (follow : bool) (s : fs) (p : string) : resolved :=
  if bool_decide (p = "") then Failed ENOENT
  else resolve_from MAXSYMLINKS (root s) follow
         (if startswith_sep p then [] else cwd s) (split_sep p).

(** [os.stat] follows a final symbolic link, [os.lstat] does not. *)
Definition stat : fs → string → resolved := resolve true.
Definition lstat : fs → string → resolved := resolve false.

(** [os.path.exists]: false for a broken symbolic link. *)
Definition exists_ (s : fs) (p : string) : bool :=
  match stat s p with Entry _ _ => true | _ => false end.

Definition isfile (s : fs) (p : string) : bool :=
  match stat s p with Entry _ File => true | _ => false end.

Definition isdir (s : fs) (p : string) : bool :=
  match stat s p with Entry _ (Dir _) => true | _ => false end.

Definition islink (s : fs) (p : string) : bool :=
  match lstat s p with Entry _ (Symlink _) => true | _ => false end.

(** The tree without the entry at canonical location [loc]. *)
Definition remove_entry (loc : list string) (r : node) : node :=
  match last loc with
  | Some c => modify_dir (delete c) (removelast loc) r
  | None => r
  end.

(** A path with its trailing separators dropped, as the kernel reads the
    last component of the path given to [mkdir] and [rmdir]. *)
Definition strip_trailing (p : string) : string :=
  if all_sep p then p else rstrip_sep p.

(** The last non-empty component of a path string. *)
Definition last_component (p : string) : option string :=
  last (filter (λ c, c ≠ "") (split_sep p)).

(** [os.unlink]: removes a file or a symbolic link itself. *)
Definition unlink (s : fs) (p : string) : exn + fs :=
  match lstat s p with
  | Entry _ (Dir _) => inl IsADirectoryError
  | Entry loc _ => inr (set_root s (remove_entry loc (root s)))
  | Vacant _ _ => inl FileNotFoundError
  | Failed e => inl (exn_of_errno e)
  end.

(** [os.mkdir]: the name must be free; a symbolic link there, dangling or
    not, counts as existing. *)
Definition mkdir (s : fs) (p : string) : exn + fs :=
  match lstat s (strip_trailing p) with
  | Entry _ _ => inl FileExistsError
  | Vacant parent c =>
      inr (set_root s (modify_dir (insert c (Dir ∅)) parent (root s)))
  | Failed e => inl (exn_of_errno e)
  end.

(** [os.rmdir]: an empty directory named by its own entry ([EINVAL] for a
    last component ["."], [ENOTEMPTY] for [".."], [EBUSY] for the root). *)
Definition rmdir (s : fs) (p : string) : exn + fs :=
  match last_component p with
  | None => inl (if bool_decide (p = "") then FileNotFoundError else OSError)
  | Some c =>
      if bool_decide (c = ".") || bool_decide (c = "..") then inl OSError
      else
        match lstat s (strip_trailing p) with
        | Entry loc (Dir es) =>
            if bool_decide (es = ∅)
            then inr (set_root s (remove_entry loc (root s)))
            else inl OSError
        | Entry _ _ => inl NotADirectoryError
        | Vacant _ _ => inl FileNotFoundError
        | Failed e => inl (exn_of_errno e)
        end
  end.

(** [shutil.rmtree(path)] with its default arguments: refuses a symbolic
    link, removes everything below the directory, then calls [os.rmdir] on
    the path; when that raises, the directory stays, emptied. *)
Definition rmtree (s : fs) (p : string) : option exn * fs :=
  match lstat s p with
  | Entry loc (Dir _) =>
      let s1 := set_root s (modify_dir (λ _, ∅) loc (root s)) in
      match rmdir s1 p with
      | inr s2 => (None, s2)
      | inl e => (Some e, s1)
      end
  | Entry _ (Symlink _) => (Some OSError, s)
  | Entry _ File => (Some NotADirectoryError, s)
  | Vacant _ _ => (Some FileNotFoundError, s)
  | Failed e => (Some (exn_of_errno e), s)
  end.

(** [os.makedirs(name, exist_ok=...)], from [os.py]: create the missing
    ancestors first (a [FileExistsError] from that is passed over), stop
    when the last component is ["."], then [mkdir]; an [OSError] of [mkdir]
    is dropped when [exist_ok] holds and the directory is there.  The
    recursion is on the head of [posixpath.split], which is shorter than
    the name; [fuel] bounds it. *)
Fixpoint makedirs_go (fuel : nat) (exist_ok : bool) (s : fs) (name : string)
    : option exn * fs :=
  match fuel with
  | O => (Some OSError, s)
  | S fuel' =>
      let '(head, tail) := PosixPath.split name in
      let '(head, tail) :=
        if bool_decide (tail = "") then PosixPath.split head else (head, tail) in
      let final (s : fs) :=
        match mkdir s name with
        | inr s' => (None, s')
        | inl e =>
            if negb exist_ok || negb (isdir s name) then (Some e, s) else (None, s)
        end in
      if negb (bool_decide (head = "")) && negb (bool_decide (tail = ""))
         && negb (exists_ s head)
      then
        match makedirs_go fuel' exist_ok s head with
        | (Some FileExistsError, s1) =>
            if bool_decide (tail = ".") then (None, s1) else final s1
        | (Some e, s1) => (Some e, s1)
        | (None, s1) => if bool_decide (tail = ".") then (None, s1) else final s1
        end
      else final s
  end.

Definition makedirs (exist_ok : bool) (s : fs) (name : string) : option exn * fs :=
  makedirs_go (S (String.length name)) exist_ok s name.

(** [DirEntry.is_dir()] for the entry [c] of the directory at [loc]: a
    symbolic link counts as what it resolves to. *)
Definition entry_is_dir (s : fs) (loc : list string) (c : string) (n : node) : bool :=
  match n with
  | Dir _ => true
  | File => false
  | Symlink _ =>
      match resolve_from MAXSYMLINKS (root s) true loc [c] with
      | Entry _ (Dir _) => true
      | _ => false
      end
  end.

(** The first triple [(top, dirs, nondirs)] that [os.walk(top)] yields, its
    [top] left out; nothing when the directory cannot be scanned ([os.walk]
    swallows that error and ends). *)
Definition walk_first (s : fs) (top : string) : option (list string * list string) :=
  match stat s top with
  | Entry loc (Dir es) =>
      let entries := map_to_list es in
      Some ((filter (λ e, entry_is_dir s loc e.1 e.2 = true) entries).*1,
            (filter (λ e, entry_is_dir s loc e.1 e.2 = false) entries).*1)
  | _ => None
  end.

(** Opening a path for writing and closing it: creates a regular file
    where the name is free. *)
Definition write_file (s : fs) (p : string) : exn + fs :=
  match stat s p with
  | Entry _ File => inr s
  | Entry _ _ => inl IsADirectoryError
  | Vacant parent c => inr (set_root s (modify_dir (insert c File) parent (root s)))
  | Failed e => inl (exn_of_errno e)
  end.

End FS.


(** ** The tracking service behind the [wandb] client

    The service is not part of the repository; this is the contract of the
    client calls that the facade makes: open a run, log a record, build and
    log an artifact, list and delete artifact versions, download. *)
Module Wandb.

(** A local [wandb.Artifact(name, type)] and the paths added to it. *)
Record artifact := {
  art_name : string;
  art_type : string;
  art_files : list string
}.

(** A run handle: [run.entity] and [run.project]. *)
Record run := { run_entity : string; run_project : string }.

(** A stored artifact version; [ver_name] is the qualified collection name
    [entity/project/name]. *)
Record version := {
  ver_id : nat;
  ver_type : string;
  ver_name : string;
  ver_aliases : list string;
  ver_files : list string
}.

(** The service's state: the account's default entity, the stored versions
    in creation order, the next version id, and the metric records. *)
Record remote := {
  entity : string;
  versions : list version;
  next_id : nat;
  history : list (gmap string pyval)
}.

(** The calls made on the client, in the order they are made. *)
Inductive call :=
  | CInit (project : string) (config : gmap string pyval)
  | CLog (record : gmap string pyval)
  | CLogArtifact (a : artifact) (aliases : list string)
  | CArtifactVersions (type_name name : string)
  | CDelete (id : nat)
  | CDownload (files : list string) (root : string).

Definition qualified_name (r : run) (name : string) : string :=
  run_entity r +:+ "/" +:+ run_project r +:+ "/" +:+ name.

Definition in_collection (type_name name : string) (v : version) : bool :=
  bool_decide (ver_type v = type_name) && bool_decide (ver_name v = name).

(** An alias names one version of a collection: logging a version under an
    alias takes the alias away from the version that carried it. *)
Definition drop_aliases (type_name name : string) (aliases : list string)
    (v : version) : version :=
  if in_collection type_name name v then
    {| ver_id := ver_id v; ver_type := ver_type v; ver_name := ver_name v;
       ver_aliases := filter (λ a, a ∉ aliases) (ver_aliases v);
       ver_files := ver_files v |}
  else v.

(** [run.log(record)] *)
Definition store_record (record : gmap string pyval) (r : remote) : remote :=
  {| entity := entity r; versions := versions r; next_id := next_id r;
     history := history r ++ [record] |}.

(** [run.log_artifact(artifact, aliases=aliases)]: a new version of the
    run's collection of that name, carrying the aliases. *)
Definition store_artifact (rn : run) (a : artifact) (aliases : list string)
    (r : remote) : remote :=
  let name := qualified_name rn (art_name a) in
  {| entity := entity r;
     versions :=
       (drop_aliases (art_type a) name aliases <$> versions r)
       ++ [ {| ver_id := next_id r; ver_type := art_type a; ver_name := name;
               ver_aliases := aliases; ver_files := art_files a |} ];
     next_id := S (next_id r);
     history := history r |}.

(** [api.artifact_versions(type_name, name)] *)
Definition list_versions (type_name name : string) (r : remote) : list version :=
  filter (λ v, in_collection type_name name v = true) (versions r).

(** [version.delete()] for a version that carries no alias (the client
    refuses an aliased one unless asked to delete its aliases, which the
    facade never does). *)
Definition delete_version (v : version) (r : remote) : remote :=
  {| entity := entity r;
     versions := filter (λ v', ver_id v' ≠ ver_id v) (versions r);
     next_id := next_id r;
     history := history r |}.

End Wandb.

(** ** The world and the monad of effects *)

(** [datetime.now()] reads the wall clock. *)
Record datetime := {
  year : nat; month : nat; day : nat;
  hour : nat; minute : nat; second : nat
}.

(** [now.strftime("%d-%m-%Y-%H-%M-%S")]; the year prints in full, which is
    four digits from the year 1000 on. *)
Definition strftime_dmYHMS (t : datetime) : string :=
  PyString.pad2 (day t) +:+ "-" +:+ PyString.pad2 (month t) +:+ "-" +:+
  pretty (year t) +:+ "-" +:+ PyString.pad2 (hour t) +:+ "-" +:+
  PyString.pad2 (minute t) +:+ "-" +:+ PyString.pad2 (second t).

Record world := {
  w_fs : FS.fs;
  w_clock : datetime;
  w_remote : Wandb.remote;
  w_calls : list Wandb.call;
  w_stdout : list string
}.

Definition set_fs (w : world) (s : FS.fs) : world :=
  {| w_fs := s; w_clock := w_clock w; w_remote := w_remote w;
     w_calls := w_calls w; w_stdout := w_stdout w |}.

Definition set_remote (w : world) (r : Wandb.remote) : world :=
  {| w_fs := w_fs w; w_clock := w_clock w; w_remote := r;
     w_calls := w_calls w; w_stdout := w_stdout w |}.

Definition add_call (w : world) (c : Wandb.call) : world :=
  {| w_fs := w_fs w; w_clock := w_clock w; w_remote := w_remote w;
     w_calls := w_calls w ++ [c]; w_stdout := w_stdout w |}.

Definition add_line (w : world) (l : string) : world :=
  {| w_fs := w_fs w; w_clock := w_clock w; w_remote := w_remote w;
     w_calls := w_calls w; w_stdout := w_stdout w ++ [l] |}.

(** How a call ends: with a value, with an exception, or with the process
    terminated.  [exit()] raises [SystemExit]; the module has no handler for
    it (its one handler names [StopIteration]), so it ends the process. *)
Inductive outcome (A : Type) :=
  | Returned (a : A)
  | Raised (e : exn)
  | Exited.
Arguments Returned {A} a.
Arguments Raised {A} e.
Arguments Exited {A}.

Definition M (A : Type) : Type := world → outcome A * world.

Definition M_ret {A} (a : A) : M A := λ w, (Returned a, w).

Definition M_bind {A B} (k : A → M B) (m : M A) : M B :=
  λ w, match m w with
       | (Returned a, w') => k a w'
       | (Raised e, w') => (Raised e, w')
       | (Exited, w') => (Exited, w')
       end.

Global Instance M_mret : MRet M := @M_ret.
Global Instance M_mbind : MBind M := @M_bind.

Definition raise {A} (e : exn) : M A := λ w, (Raised e, w).

(** [exit()] *)
Definition py_exit {A} : M A := λ w, (Exited, w).

(** [try: m  except cls: h]: [handler e] is the handler's body when the
    raised [e] is an instance of [cls]. *)
Definition try_except {A} (m : M A) (handler : exn → option (M A)) : M A :=
  λ w, match m w with
       | (Raised e, w') =>
           match handler e with
           | Some h => h w'
           | None => (Raised e, w')
           end
       | r => r
       end.

(** [for x in l: body] *)
Fixpoint for_each {A} (l : list A) (body : A → M unit) : M unit :=
  match l with
  | [] => mret tt
  | x :: l' => body x ;; for_each l' body
  end.

(** A loop that updates one local variable. *)
Fixpoint for_fold {A S} (l : list A) (body : S → A → M S) (acc : S) : M S :=
  match l with
  | [] => mret acc
  | x :: l' => acc' ← body acc x; for_fold l' body acc'
  end.

(** [print(a)] and [print(a, b)] *)
Definition print (line : string) : M unit := λ w, (Returned tt, add_line w line).
Definition print2 (a b : string) : M unit := print (a +:+ " " +:+ b).

(** [config[key]] on a [dict] *)
Definition py_getitem (d : gmap string pyval) (key : string) : M pyval :=
  match d !! key with
  | Some v => mret v
  | None => raise (KeyError key)
  end.

(** [os.path.join(a, *p)]: every argument must be a string. *)
Definition os_path_join (a : pyval) (p : list pyval) : M string :=
  match a with
  | PyStr a =>
      for_fold p (λ path b, match b with
                            | PyStr b => mret (PosixPath.join_step path b)
                            | _ => raise TypeError
                            end) a
  | _ => raise TypeError
  end.

Definition os_path_exists (p : string) : M bool := λ w, (Returned (FS.exists_ (w_fs w) p), w).
Definition os_path_isfile (p : string) : M bool := λ w, (Returned (FS.isfile (w_fs w) p), w).
Definition os_path_islink (p : string) : M bool := λ w, (Returned (FS.islink (w_fs w) p), w).

Definition lift_fs_result (r : exn + FS.fs) : M unit :=
  λ w, match r with
       | inr s => (Returned tt, set_fs w s)
       | inl e => (Raised e, w)
       end.

Definition lift_fs_effect (r : option exn * FS.fs) : M unit :=
  λ w, match r with
       | (None, s) => (Returned tt, set_fs w s)
       | (Some e, s) => (Raised e, set_fs w s)
       end.

Definition os_unlink (p : string) : M unit := λ w, lift_fs_result (FS.unlink (w_fs w) p) w.
Definition shutil_rmtree (p : string) : M unit := λ w, lift_fs_effect (FS.rmtree (w_fs w) p) w.
Definition os_makedirs (p : string) : M unit :=
  λ w, lift_fs_effect (FS.makedirs false (w_fs w) p) w.

(** [next(os.walk(top))]: the first triple, or [StopIteration] from a
    generator that yields nothing. *)
Definition next_os_walk (top : string) : M (string * list string * list string) :=
  λ w, match FS.walk_first (w_fs w) top with
       | Some (dirs, nondirs) => (Returned (top, dirs, nondirs), w)
       | None => (Raised StopIteration, w)
       end.

(** [datetime.now()] *)
Definition datetime_now : M datetime := λ w, (Returned (w_clock w), w).

(** *** The client calls *)

(** What [eval] can return, as far as [load_model] tells objects apart: an
    artifact handle (with the names of the files it holds) has a [download]
    method, any other object has none. *)
Inductive pyobj :=
  | ObjArtifact (files : list string)
  | ObjOther.

Definition remote_call (c : Wandb.call) (f : Wandb.remote → Wandb.remote) : M unit :=
  λ w, (Returned tt, set_remote (add_call w c) (f (w_remote w))).

(** [wandb.init(project=..., config=...)]: the run belongs to the account's
    default entity.  The project reaches this call as a string, or the
    constructor has raised before. *)
Definition wandb_init (project : pyval) (config : gmap string pyval) : M Wandb.run :=
  match project with
  | PyStr p =>
      λ w, (Returned {| Wandb.run_entity := Wandb.entity (w_remote w);
                        Wandb.run_project := p |},
            add_call w (Wandb.CInit p config))
  | _ => raise TypeError
  end.

(** [wandb.Artifact(name=..., type=...)] *)
Definition wandb_Artifact (name type_name : string) : Wandb.artifact :=
  {| Wandb.art_name := name; Wandb.art_type := type_name; Wandb.art_files := [] |}.

(** [artifact.add_file(path)]: the client takes regular files only. *)
Definition add_file (a : Wandb.artifact) (path : string) : M Wandb.artifact :=
  is_file ← os_path_isfile path;
  if is_file : bool then
    mret {| Wandb.art_name := Wandb.art_name a; Wandb.art_type := Wandb.art_type a;
            Wandb.art_files := Wandb.art_files a ++ [path] |}
  else raise ValueError.

Definition run_log (r : Wandb.run) (record : gmap string pyval) : M unit :=
  remote_call (Wandb.CLog record) (Wandb.store_record record).

Definition run_log_artifact (r : Wandb.run) (a : Wandb.artifact) (aliases : list string)
    : M unit :=
  remote_call (Wandb.CLogArtifact a aliases) (Wandb.store_artifact r a aliases).

Definition api_artifact_versions (type_name name : string) : M (list Wandb.version) :=
  λ w, (Returned (Wandb.list_versions type_name name (w_remote w)),
        add_call w (Wandb.CArtifactVersions type_name name)).

Definition version_delete (v : Wandb.version) : M unit :=
  remote_call (Wandb.CDelete (Wandb.ver_id v)) (Wandb.delete_version v).

(** [artifact.download(root=...)]: the handle's files written under [root],
    which is created when missing. *)
Definition artifact_download (files : list string) (root : string) : M unit :=
  (λ w, (Returned tt, add_call w (Wandb.CDownload files root))) ;;
  (λ w, lift_fs_effect (FS.makedirs true (w_fs w) root) w) ;;
  for_each files (λ f, λ w,
    lift_fs_result (FS.write_file (w_fs w) (PosixPath.join root [f])) w).

(** ** The module [log.py] *)

(** The facade object.  [_run] is unset until the constructor's last
    statement; reading an unset attribute raises [AttributeError]. *)
Record WandbLogger := {
  project_name : pyval;
  _run : option Wandb.run
}.

Definition get_run (self : WandbLogger) : M Wandb.run :=
  match _run self with
  | Some r => mret r
  | None => raise AttributeError
  end.

Section Log.

(** [os.path.dirname(os.path.realpath(__file__))]: the directory that holds
    [log.py]. *)
Variable module_dir : string.

(** Python's [eval] of an expression in the scope of a method of [self]. *)
Variable py_eval : string → WandbLogger → M pyobj.

Definition get_file_names_in_directory (directory : string) : M (list string) :=
  file_names ←
    try_except
      ('(_, _, file_names) ← next_os_walk directory; mret file_names)
      (λ e, match e with
            | StopIteration =>
                Some (print2 "Cannot read files from directory: " directory ;;
                      py_exit)
            | _ => None
            end);
  mret file_names.

Definition get_formatted_date_time : M string :=
  now ← datetime_now;
  let dt_string := strftime_dmYHMS now in
  mret dt_string.

Definition get_log_dir (log_name : pyval) : M string :=
  os_path_join (PyStr module_dir) [PyStr "log"; log_name].

Definition remove_file_dir (path : string) : M bool :=
  ex ← os_path_exists path;
  if negb ex then mret false
  else
    is_file ← os_path_isfile path;
    file_or_link ← (if is_file : bool then mret true else os_path_islink path);
    if file_or_link : bool then os_unlink path ;; mret true
    else shutil_rmtree path ;; mret true.

(** The properties [log_dir], [log_dataset_dir] and [log_model_dir]. *)
Definition log_dir (self : WandbLogger) : M string :=
  get_log_dir (project_name self).

Definition log_dataset_dir (self : WandbLogger) : M string :=
  d ← log_dir self; mret (d +:+ "/dataset").

Definition log_model_dir (self : WandbLogger) : M string :=
  d ← log_dir self; mret (d +:+ "/model").

Definition _initialize_log_dir (self : WandbLogger) : M unit :=
  (p ← log_dataset_dir self; remove_file_dir p) ;;
  (p ← log_model_dir self; remove_file_dir p) ;;
  (p ← log_dir self; remove_file_dir p) ;;
  (p ← log_dir self; os_makedirs p) ;;
  (p ← log_model_dir self; os_makedirs p) ;;
  (p ← log_dataset_dir self; os_makedirs p).

(** [WandbLogger.__init__] *)
Definition __init__ (config : gmap string pyval) : M WandbLogger :=
  name ← py_getitem config "logger_name";
  let self := {| project_name := name; _run := None |} in
  _initialize_log_dir self ;;
  run ← wandb_init (project_name self) config;
  mret {| project_name := name; _run := Some run |}.

Definition log_info (self : WandbLogger) (epoch : pyval) (key : string)
    (value : pyval) : M unit :=
  run ← get_run self;
  run_log run (<[key := value]> (<["Iteration" := epoch]> ∅)).

Definition delete_useless_model (self : WandbLogger) : M unit :=
  let artifact_type := "model" in
  run ← get_run self;
  let artifact_name :=
    Wandb.run_entity run +:+ "/" +:+ Wandb.run_project run +:+ "/model" in
  versions ← api_artifact_versions artifact_type artifact_name;
  for_each versions (λ version,
    if bool_decide (length (Wandb.ver_aliases version) = 0)
    then version_delete version
    else mret tt).

Definition log_model (self : WandbLogger) (finished : bool) : M unit :=
  let model_artifact := wandb_Artifact "model" "model" in
  d ← log_model_dir self;
  file_names ← get_file_names_in_directory d;
  model_artifact ←
    for_fold file_names
      (λ model_artifact file,
         d ← log_model_dir self;
         path ← os_path_join (PyStr d) [PyStr file];
         add_file model_artifact path)
      model_artifact;
  aliases ←
    (if finished then
       t ← get_formatted_date_time;
       mret ["latest"; "finished-" +:+ t]
     else mret ["latest"]);
  run ← get_run self;
  run_log_artifact run model_artifact aliases ;;
  if finished then delete_useless_model self else mret tt.

Definition load_model (self : WandbLogger) (model_api : string) : M string :=
  let model_api := "self._" +:+ PyString.slice_from 11 model_api in
  artifact ← py_eval model_api self;
  files ← (match artifact with
           | ObjArtifact files => mret files
           | ObjOther => raise AttributeError
           end);
  d ← log_model_dir self;
  artifact_download files d ;;
  d ← log_model_dir self;
  file_names ← get_file_names_in_directory d;
  let file_names := PyString.sort file_names in
  for_each file_names print ;;
  log_model_dir self.

(** The script at the end of the file: a configuration with the name under
    [config["logger"]["log_name"]], the facade built from it, and its log
    directory printed. *)
Definition main : M unit :=
  let sub_dict := <["log_name" := PyStr "test_exp"]> ∅ in
  let config := <["logger" := PyDict sub_dict]> ∅ in
  logger ← __init__ config;
  d ← log_dir logger;
  print d.

End Log.

(** ** Vocabulary of the properties

    The names that the statements of Part II use: the pieces of the worlds
    that the facade's calls produce, canonical paths, and the example trees
    and worlds on which the properties are instantiated. *)

Import FS.

(** The calls made between two worlds of one execution. *)
Definition calls_since (w w' : world) : list Wandb.call :=
  drop (length (w_calls w)) (w_calls w').

(** The record that [log_info] builds for an epoch, a key and a value. *)
Definition metric_record (epoch : pyval) (key : string) (value : pyval)
    : gmap string pyval :=
  <[key := value]> (<["Iteration" := epoch]> ∅).

(** The configuration that the script at the end of [log.py] builds. *)
Definition main_config : gmap string pyval :=
  <["logger" := PyDict (<["log_name" := PyStr "test_exp"]> ∅)]> ∅.

Definition empty_remote : Wandb.remote :=
  {| Wandb.entity := "me"; Wandb.versions := []; Wandb.next_id := 0;
     Wandb.history := [] |}.

Definition some_clock : datetime :=
  {| year := 2021; month := 5; day := 5; hour := 22; minute := 14; second := 31 |}.

(** A world with the given tree and nothing else. *)
Definition world_of (r : FS.node) : world :=
  {| w_fs := {| FS.root := r; FS.cwd := [] |}; w_clock := some_clock;
     w_remote := empty_remote; w_calls := []; w_stdout := [] |}.

(** The repository checked out at [/src]: the module lives in [/src/utils]. *)
Definition checkout : FS.node :=
  Dir (<["src" := Dir (<["utils" := Dir (<["log.py" := File]> ∅)]> ∅)]> ∅).

(** The text that [os.path.join] puts before ["log"]: the module directory,
    with a separator unless it is empty or ends with one. *)
Definition log_prefix (module_dir : string) : string :=
  if bool_decide (module_dir = "") || PyString.endswith_sep module_dir
  then module_dir else module_dir +:+ "/".

Definition aliasless (v : Wandb.version) : Prop := length (Wandb.ver_aliases v) = 0.

(** The loop of [delete_useless_model] over the listed versions, as it acts
    on the service. *)
Definition sweep (vs : list Wandb.version) (r : Wandb.remote) : Wandb.remote :=
  foldl (λ r v, if bool_decide (aliasless v) then Wandb.delete_version v r else r) r vs.

(** The [delete] calls of that loop. *)
Definition sweep_calls (vs : list Wandb.version) : list Wandb.call :=
  (λ v, Wandb.CDelete (Wandb.ver_id v)) <$> filter aliasless vs.

(** The qualified name of the model collection of a run. *)
Definition model_collection (run : Wandb.run) : string :=
  Wandb.run_entity run +:+ "/" +:+ Wandb.run_project run +:+ "/model".

Definition swept (run : Wandb.run) (w : world) : world :=
  let vs := Wandb.list_versions "model" (model_collection run) (w_remote w) in
  {| w_fs := w_fs w; w_clock := w_clock w;
     w_remote := sweep vs (w_remote w);
     w_calls := w_calls w
                ++ Wandb.CArtifactVersions "model" (model_collection run) :: sweep_calls vs;
     w_stdout := w_stdout w |}.

(** The ids that the loop deletes. *)
Definition swept_ids (vs : list Wandb.version) : list nat :=
  Wandb.ver_id <$> filter aliasless vs.

(** The message of [get_file_names_in_directory] before it ends the process
    ([print] puts a space between its two arguments). *)
Definition cannot_read (directory : string) : string :=
  "Cannot read files from directory: " +:+ " " +:+ directory.

(** The paths [os.path.join(d, file)] for the enumerated files. *)
Definition model_files (d : string) (names : list string) : list string :=
  PosixPath.join_step d <$> names.

Definition model_artifact_of (files : list string) : Wandb.artifact :=
  {| Wandb.art_name := "model"; Wandb.art_type := "model"; Wandb.art_files := files |}.

(** The aliases that [log_model] chooses in world [w]. *)
Definition aliases_at (finished : bool) (w : world) : list string :=
  if finished then ["latest"; "finished-" +:+ strftime_dmYHMS (w_clock w)]
  else ["latest"].

(** The world after [run.log_artifact(a, aliases=aliases)]. *)
Definition uploaded (run : Wandb.run) (a : Wandb.artifact) (aliases : list string)
    (w : world) : world :=
  set_remote (add_call w (Wandb.CLogArtifact a aliases))
    (Wandb.store_artifact run a aliases (w_remote w)).

Definition all_regular (s : fs) (paths : list string) : bool :=
  forallb (isfile s) paths.

(** A call that ended without reaching the upload: it did not return, made
    no client call and left the service as it was. *)
Definition no_upload (w : world) (r : outcome unit * world) : Prop :=
  r.1 ≠ Returned tt ∧ calls_since w r.2 = [] ∧ w_remote r.2 = w_remote w.

(** A facade for the project ["test_exp"] of the account ["me"]. *)
Definition test_exp_logger : WandbLogger :=
  {| project_name := PyStr "test_exp";
     _run := Some {| Wandb.run_entity := "me"; Wandb.run_project := "test_exp" |} |}.

(** The checkout after construction and one checkpoint saved: the model
    directory holds [ckpt.pt], the dataset directory is empty. *)
Definition with_checkpoint : FS.node :=
  Dir (<["src" := Dir (<["utils" := Dir (<["log.py" := File]> (<["log" :=
    Dir (<["test_exp" := Dir (<["model" := Dir (<["ckpt.pt" := File]> ∅)]>
                               (<["dataset" := Dir ∅]> ∅))]> ∅)]> ∅))]> ∅)]> ∅).

(** An evaluator for two expressions: the run's [use_artifact] of the latest
    model, which yields a handle on two files, and the run itself; any other
    expression raises. *)
Definition eval_two_names (expr : string) (self : WandbLogger) : M pyobj :=
  if bool_decide (expr = "self._run.use_artifact('me/test_exp/model:latest')")
  then mret (ObjArtifact ["ckpt.pt"; "optim.pt"])
  else if bool_decide (expr = "self._run") then mret ObjOther
  else raise (OtherError "NameError").

(** A plain name: one that can be a directory entry. *)
Definition plain (c : string) : Prop :=
  c ≠ "" ∧ c ≠ "." ∧ c ≠ ".." ∧ PyString.has_sep c = false.

(** The names of a location, each after a separator. *)
Fixpoint abs_path (P : list string) : string :=
  match P with
  | [] => ""
  | c :: P' => "/" +:+ c +:+ abs_path P'
  end.

(** The path string of a canonical location; the root is ["/"]. *)
Definition canon_path (P : list string) : string :=
  match P with
  | [] => "/"
  | _ => abs_path P
  end.

(** The world with the tree replaced. *)
Definition with_root (w : world) (r : node) : world :=
  set_fs w (set_root (w_fs w) r).



(** A checkout with a log directory left by an earlier run: a checkpoint, a
    dangling link where the dataset directory was, and a stray file. *)
Definition stale_checkout : node :=
  Dir (<["src" := Dir (<["utils" := Dir (<["log.py" := File]> (<["log" :=
    Dir (<["test_exp" :=
           Dir (<["model" := Dir (<["ckpt.pt" := File]> ∅)]>
                  (<["dataset" := Symlink "/mnt/data"]>
                     (<["notes.txt" := File]> ∅)))]> ∅)]> ∅))]> ∅)]> ∅).


(** A checkout whose log path is a dangling symbolic link. *)
Definition dangling_log_dir : node :=
  Dir (<["src" := Dir (<["utils" := Dir (<["log.py" := File]> (<["log" :=
    Dir (<["test_exp" := Symlink "/mnt/gone"]> ∅)]> ∅))]> ∅)]> ∅).


(** A resolution that found an object. *)
Definition is_entry (x : resolved) : bool :=
  match x with Entry _ _ => true | _ => false end.

(** The instants that [datetime] can hold and that print with a four-digit
    year. *)
Definition four_digit_instant (t : datetime) : Prop :=
  (1000 ≤ Z.of_nat (year t) ≤ 9999)%Z ∧ 1 ≤ month t ≤ 12 ∧ 1 ≤ day t ≤ 31
  ∧ hour t < 24 ∧ minute t < 60 ∧ second t < 60.

(** Every character of [s] satisfies [p]. *)
Fixpoint all_chars (p : ascii → bool) (s : string) : bool :=
  match s with
  | EmptyString => true
  | String a s' => p a && all_chars p s'
  end.

(** A decimal digit or a hyphen. *)
Definition digit_or_hyphen (a : ascii) : bool :=
  let n := nat_of_ascii a in
  (48 <=? n) && (n <=? 57) || (n =? 45).

(** The versions that [delete_useless_model] is after: those of the run's
    model collection that carry no alias. *)
Definition useless (run : Wandb.run) (v : Wandb.version) : Prop :=
  Wandb.in_collection "model" (model_collection run) v = true ∧ aliasless v.

(** A store whose version ids are distinct and below the next id. *)
Definition well_numbered (r : Wandb.remote) : Prop :=
  NoDup (Wandb.ver_id <$> Wandb.versions r)
  ∧ ∀ v, v ∈ Wandb.versions r → Wandb.ver_id v < Wandb.next_id r.

(** The version that [log_model(finished=True)] stores in world [w] for the
    given files. *)
Definition finished_version (run : Wandb.run) (files : list string) (w : world)
    : Wandb.version :=
  {| Wandb.ver_id := Wandb.next_id (w_remote w);
     Wandb.ver_type := "model";
     Wandb.ver_name := model_collection run;
     Wandb.ver_aliases := aliases_at true w;
     Wandb.ver_files := files |}.

(** A store with a version that is only the latest, one that an earlier
    [log_model(finished=True)] tagged, one without alias and one of another
    project. *)
Definition used_remote : Wandb.remote :=
  {| Wandb.entity := "me";
     Wandb.versions :=
       [ {| Wandb.ver_id := 0; Wandb.ver_type := "model";
            Wandb.ver_name := "me/test_exp/model"; Wandb.ver_aliases := [];
            Wandb.ver_files := ["a.pt"] |};
         {| Wandb.ver_id := 1; Wandb.ver_type := "model";
            Wandb.ver_name := "me/test_exp/model";
            Wandb.ver_aliases := ["finished-01-05-2021-10-00-00"];
            Wandb.ver_files := ["b.pt"] |};
         {| Wandb.ver_id := 2; Wandb.ver_type := "model";
            Wandb.ver_name := "me/other/model"; Wandb.ver_aliases := [];
            Wandb.ver_files := ["c.pt"] |};
         {| Wandb.ver_id := 3; Wandb.ver_type := "model";
            Wandb.ver_name := "me/test_exp/model"; Wandb.ver_aliases := ["latest"];
            Wandb.ver_files := ["d.pt"] |} ];
     Wandb.next_id := 4;
     Wandb.history := [] |}.

(** The checkout with one checkpoint, talking to that store. *)
Definition used_world : world :=
  set_remote (world_of with_checkpoint) used_remote.

(** Code-point order on strings, as [list.sort] uses it. *)
Definition str_le (a b : string) : Prop := String.leb a b = true.



(** The checkout with one checkpoint and, beside it in the model directory,
    a link to a checkpoint that is gone. *)
Definition with_dangling_checkpoint : FS.node :=
  Dir (<["src" := Dir (<["utils" := Dir (<["log.py" := File]> (<["log" :=
    Dir (<["test_exp" :=
      Dir (<["model" := Dir (<["ckpt.pt" := File]>
                               (<["best.pt" := Symlink "/mnt/gone.pt"]> ∅))]>
             (<["dataset" := Dir ∅]> ∅))]> ∅)]> ∅))]> ∅)]> ∅).

(* ===================================================================== *)
(** * Part II. Properties                                                 *)
(* ===================================================================== *)

(** ** Running the monad *)

Lemma run_bind {A B} (m : M A) (k : A → M B) (w : world) :
  (m ≫= k) w =
  match m w with
  | (Returned a, w') => k a w'
  | (Raised e, w') => (Raised e, w')
  | (Exited, w') => (Exited, w')
  end.
Proof. reflexivity. Qed.

Lemma run_ret {A} (a : A) (w : world) : (mret a : M A) w = (Returned a, w).
Proof. reflexivity. Qed.

Lemma calls_since_refl w : calls_since w w = [].
Proof. unfold calls_since. apply drop_all. Qed.

Lemma calls_since_app w w' l :
  w_calls w' = w_calls w ++ l → calls_since w w' = l.
Proof. unfold calls_since. intros ->. by rewrite drop_app_length. Qed.

(** ** Metric records: [log_info] *)

Section Metrics.
Variables (name : pyval) (run : Wandb.run).

Let self : WandbLogger := {| project_name := name; _run := Some run |}.

Lemma log_info_run epoch key value w :
  log_info self epoch key value w =
  (Returned tt,
   set_remote (add_call w (Wandb.CLog (metric_record epoch key value)))
     (Wandb.store_record (metric_record epoch key value) (w_remote w))).
Proof. reflexivity. Qed.

End Metrics.

(** C4. Every call [log_info(epoch, key, value)] on a constructed facade
    makes exactly one client call, [run.log] with the one record
    [{"Iteration": epoch, key: value}], which reaches the service's history
    in that same call; the file system, the clock and the standard output
    are untouched, so nothing is buffered locally.  In particular
    [log_info(3, "loss", 0.42)] sends the single record with the two fields
    ["Iteration" = 3] and ["loss" = 0.42]. *)
Theorem log_info_sends_one_record :
  (∀ name run epoch key value w,
     let self := {| project_name := name; _run := Some run |} in
     let w' := (log_info self epoch key value w).2 in
     (log_info self epoch key value w).1 = Returned tt
     ∧ calls_since w w' = [Wandb.CLog (metric_record epoch key value)]
     ∧ Wandb.history (w_remote w') =
         Wandb.history (w_remote w) ++ [metric_record epoch key value]
     ∧ Wandb.versions (w_remote w') = Wandb.versions (w_remote w)
     ∧ w_fs w' = w_fs w ∧ w_stdout w' = w_stdout w ∧ w_clock w' = w_clock w)
  ∧ (let r := metric_record (PyInt 3) "loss" (PyFloat 0.42) in
     r !! "Iteration" = Some (PyInt 3)
     ∧ r !! "loss" = Some (PyFloat 0.42)
     ∧ dom r = {["Iteration"; "loss"]}).
Proof.
  split.
  - intros name run epoch key value w self w'. subst self w'.
    rewrite log_info_run. cbn.
    repeat split; try done.
    by apply calls_since_app.
  - cbn zeta. unfold metric_record. split_and!.
    + by rewrite lookup_insert_ne, lookup_insert_eq.
    + by rewrite lookup_insert_eq.
    + rewrite !dom_insert_L, dom_empty_L. set_solver.
Qed.

(** C10. When the key is itself ["Iteration"], the record sent has the one
    field ["Iteration"], holding the caller's value: the epoch index is
    overwritten and no record with two fields is sent. *)
Theorem log_info_iteration_key_overwrites_epoch :
  ∀ name run epoch value w,
    let self := {| project_name := name; _run := Some run |} in
    metric_record epoch "Iteration" value = {["Iteration" := value]}
    ∧ size (metric_record epoch "Iteration" value) = 1
    ∧ (log_info self epoch "Iteration" value w).1 = Returned tt
    ∧ calls_since w (log_info self epoch "Iteration" value w).2 =
        [Wandb.CLog {["Iteration" := value]}].
Proof.
  intros name run epoch value w self.
  assert (Hrec : metric_record epoch "Iteration" value = {["Iteration" := value]}).
  { unfold metric_record. by rewrite insert_insert_eq, insert_empty. }
  split_and!; [done | | done |].
  - rewrite Hrec. apply map_size_singleton.
  - subst self. rewrite log_info_run, Hrec. by apply calls_since_app.
Qed.

(** ** Construction without the key *)

Lemma getitem_missing (d : gmap string pyval) key w :
  d !! key = None → py_getitem d key w = (Raised (KeyError key), w).
Proof. intros Hnone. unfold py_getitem. by rewrite Hnone. Qed.

Lemma init_stops_at_missing_key module_dir (config : gmap string pyval) w :
  config !! "logger_name" = None →
  __init__ module_dir config w = (Raised (KeyError "logger_name"), w).
Proof.
  intros Hnone. unfold __init__. by rewrite run_bind, getitem_missing.
Qed.

(** C6. A configuration without the key ["logger_name"] makes the
    constructor raise at its first statement (Python's [KeyError] for a
    missing key of a [dict]): no directory is touched and no run is opened. *)
Theorem init_without_logger_name_raises :
  ∀ module_dir (config : gmap string pyval) w,
    config !! "logger_name" = None →
    __init__ module_dir config w = (Raised (KeyError "logger_name"), w)
    ∧ calls_since w (__init__ module_dir config w).2 = []
    ∧ w_fs (__init__ module_dir config w).2 = w_fs w.
Proof.
  intros module_dir config w Hnone.
  rewrite init_stops_at_missing_key by done.
  split_and!; [done | apply calls_since_refl | done].
Qed.

Lemma init_without_logger_name_raises_witness :
  main_config !! "logger_name" = None
  ∧ __init__ "/src/utils" main_config (world_of checkout) =
      (Raised (KeyError "logger_name"), world_of checkout).
Proof.
  split; [reflexivity |].
  apply (init_without_logger_name_raises "/src/utils" main_config (world_of checkout)).
  reflexivity.
Defined.

(** X15. The script of [log.py] itself ends in that [KeyError], wherever the
    module lies and whatever the state of the world, before any directory
    is touched: it stores the name under [config["logger"]["log_name"]],
    not under [config["logger_name"]]. *)
Lemma main_raises_KeyError module_dir w :
  main module_dir w = (Raised (KeyError "logger_name"), w).
Proof.
  unfold main. cbv zeta. rewrite run_bind.
  by rewrite init_stops_at_missing_key.
Qed.

(** ** The directory names *)

Lemma app_cons a (s t : string) : String a s +:+ t = String a (s +:+ t).
Proof. reflexivity. Qed.

Lemma app_nil_l (t : string) : "" +:+ t = t.
Proof. reflexivity. Qed.

Lemma app_assoc_s (a b c : string) : (a +:+ b) +:+ c = a +:+ (b +:+ c).
Proof.
  induction a as [|x a IH]; [done |].
  by rewrite !app_cons, IH.
Qed.

Lemma app_nil_r_s (a : string) : a +:+ "" = a.
Proof. induction a as [|x a IH]; [done | by rewrite app_cons, IH]. Qed.

Lemma endswith_sep_app_log (d : string) : PyString.endswith_sep (d +:+ "log") = false.
Proof.
  induction d as [|x d IH]; [done |].
  rewrite app_cons. cbn [PyString.endswith_sep]. rewrite IH.
  by destruct d.
Qed.

Lemma join_log_name module_dir (name : string) :
  PyString.startswith_sep name = false →
  PosixPath.join module_dir ["log"; name] = log_prefix module_dir +:+ "log/" +:+ name.
Proof.
  intros Hname.
  assert (Hstep : ∀ d, PosixPath.join_step (d +:+ "log") name = d +:+ "log/" +:+ name).
  { intros d. unfold PosixPath.join_step. rewrite Hname, endswith_sep_app_log.
    rewrite bool_decide_eq_false_2 by (by destruct d).
    cbn [orb]. by rewrite app_assoc_s. }
  unfold PosixPath.join, log_prefix. cbn [foldl].
  replace (PosixPath.join_step module_dir "log")
    with ((if bool_decide (module_dir = "") || PyString.endswith_sep module_dir
           then module_dir else module_dir +:+ "/") +:+ "log").
  - by rewrite Hstep.
  - unfold PosixPath.join_step. cbn [PyString.startswith_sep].
    replace (PyString.is_sep "l") with false by reflexivity.
    destruct (bool_decide (module_dir = "") || PyString.endswith_sep module_dir);
      [done | by rewrite app_assoc_s].
Qed.

Lemma log_dir_run module_dir (name : string) run w :
  log_dir module_dir {| project_name := PyStr name; _run := run |} w =
  (Returned (PosixPath.join module_dir ["log"; name]), w).
Proof. reflexivity. Qed.

Lemma log_dataset_dir_run module_dir (name : string) run w :
  log_dataset_dir module_dir {| project_name := PyStr name; _run := run |} w =
  (Returned (PosixPath.join module_dir ["log"; name] +:+ "/dataset"), w).
Proof. reflexivity. Qed.

Lemma log_model_dir_run module_dir (name : string) run w :
  log_model_dir module_dir {| project_name := PyStr name; _run := run |} w =
  (Returned (PosixPath.join module_dir ["log"; name] +:+ "/model"), w).
Proof. reflexivity. Qed.

(** The constructor keeps the configured name: a facade it returns has
    [config["logger_name"]] as its [project_name]. *)
Lemma init_project_name module_dir config w self w' :
  __init__ module_dir config w = (Returned self, w') →
  config !! "logger_name" = Some (project_name self).
Proof.
  unfold __init__. rewrite run_bind. unfold py_getitem.
  destruct (config !! "logger_name") as [v|] eqn:Hv; [|done].
  rewrite run_ret, run_bind.
  destruct (_initialize_log_dir _ _ _) as [[[]|e|] w1]; [|done..].
  rewrite run_bind.
  destruct (wandb_init _ _ _) as [[rn|e|] w2]; [|done..].
  rewrite run_ret. by intros [= <- <-].
Qed.

(** C9. With the configuration [{"logger_name": "test_exp"}] the facade's
    name is ["test_exp"] and its log directory is [<base>/log/test_exp],
    where [<base>] is the directory of the module ([os.path.join] adds the
    separator after it unless it already ends with one); and for every
    project name the dataset and model directories are the log directory
    followed by ["/dataset"] and ["/model"]. *)
Theorem log_dir_of_test_exp :
  ∀ module_dir w,
    (∀ self w', __init__ module_dir {["logger_name" := PyStr "test_exp"]} w
                = (Returned self, w') →
                project_name self = PyStr "test_exp")
    ∧ (∀ run, log_dir module_dir {| project_name := PyStr "test_exp"; _run := run |} w
              = (Returned (log_prefix module_dir +:+ "log/test_exp"), w))
    ∧ (∀ (name : string) run,
         let self := {| project_name := PyStr name; _run := run |} in
         ∃ d, log_dir module_dir self w = (Returned d, w)
              ∧ log_dataset_dir module_dir self w = (Returned (d +:+ "/dataset"), w)
              ∧ log_model_dir module_dir self w = (Returned (d +:+ "/model"), w)).
Proof.
  intros module_dir w. split_and!.
  - intros self w' Hinit. apply init_project_name in Hinit.
    rewrite lookup_singleton_eq in Hinit. by injection Hinit as <-.
  - intros run. rewrite log_dir_run. by rewrite join_log_name.
  - intros name run self. eexists. split_and!; reflexivity.
Qed.

Lemma log_dir_of_test_exp_witness :
  ∃ self w',
    __init__ "/src/utils" {["logger_name" := PyStr "test_exp"]} (world_of checkout)
      = (Returned self, w')
    ∧ project_name self = PyStr "test_exp"
    ∧ log_dir "/src/utils" self w' = (Returned "/src/utils/log/test_exp", w').
Proof.
  eexists _, _. split; [vm_compute; reflexivity |].
  split.
  - eapply (proj1 (log_dir_of_test_exp "/src/utils" (world_of checkout))).
    vm_compute. reflexivity.
  - reflexivity.
Defined.

(** ** Cleaning up: [delete_useless_model] *)

Lemma sweep_loop_run vs w :
  for_each vs (λ version,
      if bool_decide (length (Wandb.ver_aliases version) = 0)
      then version_delete version else mret tt) w =
  (Returned tt,
   {| w_fs := w_fs w; w_clock := w_clock w; w_remote := sweep vs (w_remote w);
      w_calls := w_calls w ++ sweep_calls vs; w_stdout := w_stdout w |}).
Proof.
  revert w. induction vs as [|v vs IH]; intros w.
  - cbn. unfold sweep_calls. cbn. rewrite app_nil_r. by destruct w.
  - cbn [for_each]. rewrite run_bind. unfold sweep_calls, sweep.
    rewrite filter_cons. cbn [foldl]. fold (aliasless v).
    destruct (decide (aliasless v)) as [Hv|Hv].
    + rewrite (bool_decide_eq_true_2 _ Hv).
      unfold version_delete, remote_call at 1. rewrite IH. cbn.
      unfold sweep, sweep_calls. by rewrite <- app_assoc.
    + rewrite (bool_decide_eq_false_2 _ Hv). rewrite run_ret, IH. done.
Qed.

Lemma delete_useless_model_run module_name run w :
  delete_useless_model {| project_name := module_name; _run := Some run |} w =
  (Returned tt, swept run w).
Proof.
  unfold delete_useless_model, get_run. cbn [_run].
  rewrite run_bind, run_ret, run_bind. unfold api_artifact_versions.
  rewrite sweep_loop_run. cbn. unfold swept. by rewrite <- app_assoc.
Qed.

Lemma delete_useless_model_no_run module_name w :
  delete_useless_model {| project_name := module_name; _run := None |} w =
  (Raised AttributeError, w).
Proof. reflexivity. Qed.

Lemma filter_all {A} (P : A → Prop) `{!∀ x, Decision (P x)} (l : list A) :
  (∀ x, x ∈ l → P x) → filter P l = l.
Proof.
  induction l as [|x l IH]; intros Hl; [done |].
  rewrite filter_cons_True by (apply Hl; by left).
  f_equal. apply IH. intros y ?. apply Hl. by right.
Qed.

Lemma sweep_cons v vs r :
  sweep (v :: vs) r =
  sweep vs (if bool_decide (aliasless v) then Wandb.delete_version v r else r).
Proof. reflexivity. Qed.

Lemma sweep_versions vs r :
  Wandb.versions (sweep vs r) =
  filter (λ v, Wandb.ver_id v ∉ swept_ids vs) (Wandb.versions r).
Proof.
  revert r. induction vs as [|v vs IH]; intros r.
  - cbn. symmetry. apply filter_all. intros ? _. unfold swept_ids. cbn. set_solver.
  - rewrite sweep_cons, IH.
    unfold swept_ids. rewrite filter_cons.
    destruct (decide (aliasless v)) as [Hv|Hv].
    + rewrite (bool_decide_eq_true_2 _ Hv). cbn [Wandb.delete_version Wandb.versions].
      rewrite list_filter_filter. apply list_filter_iff.
      intros v'. rewrite fmap_cons, not_elem_of_cons. tauto.
    + by rewrite (bool_decide_eq_false_2 _ Hv).
Qed.

Lemma sweep_entity vs r : Wandb.entity (sweep vs r) = Wandb.entity r.
Proof.
  revert r. induction vs as [|v vs IH]; intros r; [done |].
  rewrite sweep_cons, IH. by destruct (bool_decide _).
Qed.

(** After the loop, every version still listed in the collection carries an
    alias. *)
Lemma sweep_leaves_aliased type_name name r v :
  v ∈ Wandb.list_versions type_name name
        (sweep (Wandb.list_versions type_name name r) r) →
  ¬ aliasless v.
Proof.
  unfold Wandb.list_versions. rewrite sweep_versions.
  rewrite !list_elem_of_filter. intros (Hcoll & Hid & Hv) Hal.
  apply Hid. unfold swept_ids. apply list_elem_of_fmap. exists v. split; [done |].
  by rewrite !list_elem_of_filter.
Qed.

Lemma sweep_nothing vs r :
  (∀ v, v ∈ vs → ¬ aliasless v) → sweep vs r = r ∧ sweep_calls vs = [].
Proof.
  intros Hvs. induction vs as [|v vs IH]; [done |].
  destruct IH as [IH1 IH2]; [intros v' ?; apply Hvs; by right |].
  assert (Hv : ¬ aliasless v) by (apply Hvs; by left).
  rewrite sweep_cons. unfold sweep_calls. rewrite filter_cons.
  rewrite (bool_decide_eq_false_2 _ Hv). rewrite decide_False by done.
  by split.
Qed.

(** C3. Running [delete_useless_model] a second time changes nothing on the
    service: the version set (and the rest of the service's state) is the one
    left by the first run, the second run makes no [delete] call, and it ends
    as the first did.  The first run, on an open run, leaves no version
    without alias in the run's model collection. *)
Theorem delete_useless_model_idempotent :
  ∀ self w,
    let r1 := delete_useless_model self w in
    let r2 := delete_useless_model self r1.2 in
    Wandb.versions (w_remote r2.2) = Wandb.versions (w_remote r1.2)
    ∧ w_remote r2.2 = w_remote r1.2
    ∧ (∀ id, Wandb.CDelete id ∉ calls_since r1.2 r2.2)
    ∧ r2.1 = r1.1
    ∧ (∀ run v,
         _run self = Some run →
         v ∈ Wandb.list_versions "model" (model_collection run) (w_remote r1.2) →
         ¬ aliasless v).
Proof.
  intros [name [run|]] w; cbn zeta.
  - rewrite !delete_useless_model_run. cbn [fst snd].
    set (coll := model_collection run).
    destruct (sweep_nothing
                (Wandb.list_versions "model" coll (w_remote (swept run w)))
                (w_remote (swept run w))) as [Hs Hc].
    { intros v. apply sweep_leaves_aliased. }
    assert (Hrem : w_remote (swept run (swept run w)) = w_remote (swept run w)).
    { unfold swept at 1. cbn [w_remote]. exact Hs. }
    split_and!; [by rewrite Hrem | done | | done |].
    + intros id. erewrite calls_since_app.
      2:{ unfold swept at 1. cbn [w_calls]. reflexivity. }
      fold coll. rewrite Hc. by intros ?%list_elem_of_singleton.
    + intros run' v [= <-]. apply sweep_leaves_aliased.
  - rewrite !delete_useless_model_no_run. cbn [fst snd].
    rewrite calls_since_refl. split_and!; try done.
    intros id. apply not_elem_of_nil.
Qed.

(** A service holding two versions of the model collection of
    [me/test_exp], the older one without alias. *)
Lemma delete_useless_model_idempotent_witness :
  let w := set_remote (world_of checkout)
             {| Wandb.entity := "me";
                Wandb.versions :=
                  [ {| Wandb.ver_id := 0; Wandb.ver_type := "model";
                       Wandb.ver_name := "me/test_exp/model";
                       Wandb.ver_aliases := []; Wandb.ver_files := [] |};
                    {| Wandb.ver_id := 1; Wandb.ver_type := "model";
                       Wandb.ver_name := "me/test_exp/model";
                       Wandb.ver_aliases := ["latest"]; Wandb.ver_files := [] |} ];
                Wandb.next_id := 2; Wandb.history := [] |} in
  let r1 := delete_useless_model test_exp_logger w in
  let r2 := delete_useless_model test_exp_logger r1.2 in
  calls_since w r1.2
    = [Wandb.CArtifactVersions "model" "me/test_exp/model"; Wandb.CDelete 0]
  ∧ calls_since r1.2 r2.2 = [Wandb.CArtifactVersions "model" "me/test_exp/model"]
  ∧ Wandb.ver_id <$> Wandb.versions (w_remote r1.2) = [1]
  ∧ Wandb.versions (w_remote r2.2) = Wandb.versions (w_remote r1.2).
Proof.
  intros w r1 r2. split_and!; [vm_compute; reflexivity.. |].
  apply (delete_useless_model_idempotent test_exp_logger w).
Defined.

(** ** Uploading the model: [log_model] *)

Lemma get_file_names_run directory w :
  get_file_names_in_directory directory w =
  match walk_first (w_fs w) directory with
  | Some (_, names) => (Returned names, w)
  | None => (Exited, add_line w (cannot_read directory))
  end.
Proof.
  unfold get_file_names_in_directory. rewrite run_bind.
  unfold try_except. rewrite run_bind. unfold next_os_walk.
  by destruct (walk_first (w_fs w) directory) as [[dirs names]|].
Qed.

Lemma add_files_run module_dir (name : string) orun names a w :
  let self := {| project_name := PyStr name; _run := orun |} in
  let d := PosixPath.join module_dir ["log"; name] +:+ "/model" in
  for_fold names
    (λ model_artifact file,
       d ← log_model_dir module_dir self;
       path ← os_path_join (PyStr d) [PyStr file];
       add_file model_artifact path) a w =
  if all_regular (w_fs w) (model_files d names)
  then (Returned {| Wandb.art_name := Wandb.art_name a;
                    Wandb.art_type := Wandb.art_type a;
                    Wandb.art_files := Wandb.art_files a ++ model_files d names |}, w)
  else (Raised ValueError, w).
Proof.
  intros self d. revert a. induction names as [|f names IH]; intros a.
  - cbn. rewrite app_nil_r. by destruct a.
  - cbn [for_fold]. rewrite run_bind, run_bind.
    subst self. rewrite log_model_dir_run. fold d.
    rewrite run_bind. cbn [os_path_join for_fold]. rewrite run_bind, !run_ret.
    unfold add_file at 1. rewrite run_bind. unfold os_path_isfile at 1.
    unfold model_files, all_regular. cbn [fmap list_fmap forallb].
    destruct (isfile (w_fs w) (PosixPath.join_step d f)); [|done].
    rewrite run_ret, IH. cbn [andb Wandb.art_name Wandb.art_type Wandb.art_files].
    unfold all_regular, model_files.
    destruct (forallb _ _); [|done].
    by rewrite <- app_assoc.
Qed.

(** What [log_model] does, stage by stage, for a facade with a string name. *)
Lemma log_model_run module_dir (name : string) orun finished w :
  let self := {| project_name := PyStr name; _run := orun |} in
  let d := PosixPath.join module_dir ["log"; name] +:+ "/model" in
  log_model module_dir self finished w =
  match walk_first (w_fs w) d with
  | None => (Exited, add_line w (cannot_read d))
  | Some (_, names) =>
      if all_regular (w_fs w) (model_files d names) then
        match orun with
        | None => (Raised AttributeError, w)
        | Some run =>
            let w1 := uploaded run (model_artifact_of (model_files d names))
                        (aliases_at finished w) w in
            if finished then delete_useless_model self w1 else (Returned tt, w1)
        end
      else (Raised ValueError, w)
  end.
Proof.
  intros self d. unfold log_model. rewrite run_bind.
  subst self. rewrite log_model_dir_run. fold d.
  rewrite run_bind, get_file_names_run.
  destruct (walk_first (w_fs w) d) as [[dirs names]|]; [|done].
  rewrite run_bind.
  rewrite (add_files_run module_dir name orun names (wandb_Artifact "model" "model") w).
  fold d. destruct (all_regular (w_fs w) (model_files d names)); [|done].
  cbn [wandb_Artifact Wandb.art_name Wandb.art_type Wandb.art_files app].
  fold (model_artifact_of (model_files d names)).
  rewrite run_bind.
  destruct finished, orun as [run|]; try done.
Qed.

(** A name that is not a string stops [log_model] at its first property. *)
Lemma log_model_not_str module_dir (name : pyval) orun finished w :
  (∀ s, name ≠ PyStr s) →
  log_model module_dir {| project_name := name; _run := orun |} finished w =
  (Raised TypeError, w).
Proof. intros Hname. destruct name; try done. by destruct (Hname s). Qed.

Lemma calls_since_uploaded run a aliases w :
  calls_since w (uploaded run a aliases w) = [Wandb.CLogArtifact a aliases].
Proof. by apply calls_since_app. Qed.

Lemma calls_swept run w :
  w_calls (swept run w) =
  w_calls w ++ Wandb.CArtifactVersions "model" (model_collection run)
            :: sweep_calls (Wandb.list_versions "model" (model_collection run) (w_remote w)).
Proof. reflexivity. Qed.

(** The version that [store_artifact] appends carries the given aliases. *)
Lemma uploaded_version run a aliases w :
  ∃ v, last (Wandb.versions (w_remote (uploaded run a aliases w))) = Some v
       ∧ Wandb.ver_aliases v = aliases
       ∧ Wandb.ver_files v = Wandb.art_files a.
Proof. eexists. cbn. rewrite last_snoc. done. Qed.

Lemma log_model_outcomes module_dir self finished w :
  (∃ run d dirs names,
      _run self = Some run
      ∧ log_model_dir module_dir self w = (Returned d, w)
      ∧ walk_first (w_fs w) d = Some (dirs, names)
      ∧ all_regular (w_fs w) (model_files d names) = true
      ∧ log_model module_dir self finished w =
          (Returned tt,
           (if finished then swept run else id)
             (uploaded run (model_artifact_of (model_files d names))
                (aliases_at finished w) w)))
  ∨ no_upload w (log_model module_dir self finished w).
Proof.
  destruct self as [name orun].
  assert (Hcases : (∃ s, name = PyStr s) ∨ (∀ s, name ≠ PyStr s))
    by (destruct name; eauto; by right).
  destruct Hcases as [[s ->]|Hname].
  - rewrite log_model_run.
    set (d := PosixPath.join module_dir ["log"; s] +:+ "/model").
    destruct (walk_first (w_fs w) d) as [[dirs names]|] eqn:Hwalk.
    + destruct (all_regular (w_fs w) (model_files d names)) eqn:Hreg.
      * destruct orun as [run|].
        -- left. exists run, d, dirs, names.
           rewrite log_model_dir_run. fold d. split_and!; try done.
           cbn zeta. destruct finished; [|done].
           by rewrite delete_useless_model_run.
        -- right. unfold no_upload. cbn. by rewrite calls_since_refl.
      * right. unfold no_upload. cbn. by rewrite calls_since_refl.
    + right. unfold no_upload. cbn. split_and!; try done.
      apply calls_since_app. cbn. by rewrite app_nil_r.
  - right. rewrite log_model_not_str by done.
    unfold no_upload. cbn. by rewrite calls_since_refl.
Qed.

(** C1. [log_model(finished=False)] either uploads one artifact, with the
    alias list [["latest"]] and nothing after it, or ends before the upload
    having made no client call.  [log_model(finished=True)] uploads it with
    [["latest", "finished-<timestamp>"]], the timestamp being the clock's
    reading formatted day-month-year-hour-minute-second, and then runs the
    cleanup of [delete_useless_model] on the service as the upload left it:
    the calls are the upload, the listing of the model collection and one
    [delete] per listed version without alias.  The upload does take place
    whenever the run is open, the model directory can be enumerated and the
    client takes every enumerated file. *)
Theorem log_model_aliases :
  ∀ module_dir self w,
    (let r := log_model module_dir self false w in
     (∃ run a v,
         _run self = Some run
         ∧ r = (Returned tt, uploaded run a ["latest"] w)
         ∧ calls_since w r.2 = [Wandb.CLogArtifact a ["latest"]]
         ∧ last (Wandb.versions (w_remote r.2)) = Some v
         ∧ Wandb.ver_aliases v = ["latest"])
     ∨ no_upload w r)
    ∧
    (let r := log_model module_dir self true w in
     let stamp := "finished-" +:+ strftime_dmYHMS (w_clock w) in
     (∃ run a,
         let w1 := uploaded run a ["latest"; stamp] w in
         _run self = Some run
         ∧ r = delete_useless_model self w1
         ∧ r = (Returned tt, swept run w1)
         ∧ calls_since w r.2 =
             Wandb.CLogArtifact a ["latest"; stamp]
             :: Wandb.CArtifactVersions "model" (model_collection run)
             :: sweep_calls (Wandb.list_versions "model" (model_collection run)
                               (w_remote w1)))
     ∨ no_upload w r)
    ∧
    (∀ finished run d dirs names,
       _run self = Some run →
       log_model_dir module_dir self w = (Returned d, w) →
       walk_first (w_fs w) d = Some (dirs, names) →
       all_regular (w_fs w) (model_files d names) = true →
       ¬ no_upload w (log_model module_dir self finished w)).
Proof.
  intros module_dir self w. split_and!.
  - destruct (log_model_outcomes module_dir self false w)
      as [(run & d & dirs & names & Hrun & _ & _ & _ & Hr)|Hno]; [|by right].
    left. cbn zeta. rewrite Hr.
    destruct (uploaded_version run (model_artifact_of (model_files d names))
                ["latest"] w) as (v & Hlast & Hal & _).
    exists run, (model_artifact_of (model_files d names)), v.
    split_and!; try done. apply calls_since_uploaded.
  - destruct (log_model_outcomes module_dir self true w)
      as [(run & d & dirs & names & Hrun & _ & _ & _ & Hr)|Hno]; [|by right].
    left. cbn zeta. rewrite Hr.
    exists run, (model_artifact_of (model_files d names)).
    destruct self as [name orun]. cbn in Hrun. subst orun.
    rewrite delete_useless_model_run. split_and!; try done.
    apply calls_since_app. cbn [snd]. rewrite calls_swept.
    cbn [uploaded set_remote add_call w_calls w_remote].
    by rewrite <- app_assoc.
  - intros finished run d dirs names Hrun Hd Hwalk Hreg (Hret & _).
    destruct self as [name orun]. cbn in Hrun. subst orun.
    destruct name as [| | | |name|]; try done.
    rewrite log_model_dir_run in Hd.
    assert (Hdd : PosixPath.join module_dir ["log"; name] +:+ "/model" = d)
      by congruence.
    rewrite log_model_run, Hdd, Hwalk, Hreg in Hret. cbn zeta in Hret.
    destruct finished; [by rewrite delete_useless_model_run in Hret | done].
Qed.

(** On the checkout with one checkpoint, at the clock's 5 May 2021, 22:14:31. *)
Lemma log_model_aliases_witness :
  let w := world_of with_checkpoint in
  let a := model_artifact_of ["/src/utils/log/test_exp/model/ckpt.pt"] in
  calls_since w (log_model "/src/utils" test_exp_logger false w).2
    = [Wandb.CLogArtifact a ["latest"]]
  ∧ calls_since w (log_model "/src/utils" test_exp_logger true w).2
    = [Wandb.CLogArtifact a ["latest"; "finished-05-05-2021-22-14-31"];
       Wandb.CArtifactVersions "model" "me/test_exp/model"]
  ∧ ¬ no_upload w (log_model "/src/utils" test_exp_logger true w).
Proof.
  intros w a. split_and!; [vm_compute; reflexivity.. |].
  eapply (proj2 (proj2 (log_model_aliases "/src/utils" test_exp_logger w)) true);
    vm_compute; reflexivity.
Defined.

(** C8. The artifact that [log_model] uploads holds exactly the files that
    the enumeration of the model directory yields, each as
    [os.path.join(log_model_dir, file)], in the enumeration's order:
    whenever the call logs an artifact, the model directory was enumerated
    in the world of the call and the artifact's files are that list; and
    the call does log that artifact whenever the directory can be
    enumerated, the client takes every enumerated file, and the run is
    open. *)
Theorem log_model_packages_enumerated_files :
  ∀ module_dir self finished w,
    (∀ a aliases,
       Wandb.CLogArtifact a aliases
         ∈ calls_since w (log_model module_dir self finished w).2 →
       ∃ d dirs names,
         log_model_dir module_dir self w = (Returned d, w)
         ∧ walk_first (w_fs w) d = Some (dirs, names)
         ∧ Wandb.art_files a = model_files d names
         ∧ Wandb.art_name a = "model" ∧ Wandb.art_type a = "model")
    ∧ (∀ d dirs names,
         log_model_dir module_dir self w = (Returned d, w) →
         walk_first (w_fs w) d = Some (dirs, names) →
         all_regular (w_fs w) (model_files d names) = true →
         is_Some (_run self) →
         (log_model module_dir self finished w).1 = Returned tt
         ∧ Wandb.CLogArtifact (model_artifact_of (model_files d names))
             (aliases_at finished w)
             ∈ calls_since w (log_model module_dir self finished w).2).
Proof.
  intros module_dir self finished w.
  assert (Hcalls : ∀ run a,
            calls_since w ((if finished then swept run else id)
                             (uploaded run a (aliases_at finished w) w))
            = Wandb.CLogArtifact a (aliases_at finished w)
              :: (if finished
                  then Wandb.CArtifactVersions "model" (model_collection run)
                       :: sweep_calls (Wandb.list_versions "model"
                            (model_collection run)
                            (w_remote (uploaded run a (aliases_at finished w) w)))
                  else [])).
  { intros run a. destruct finished; [|apply calls_since_uploaded].
    apply calls_since_app. rewrite calls_swept.
    cbn [uploaded set_remote add_call w_calls w_remote].
    by rewrite <- app_assoc. }
  split.
  - intros a aliases Hin.
    destruct (log_model_outcomes module_dir self finished w)
      as [(run & d & dirs & names & Hrun & Hd & Hwalk & _ & Hr)|(_ & Hno & _)].
    + exists d, dirs, names. split_and!; try done.
      all: rewrite Hr in Hin; cbn [snd] in Hin; rewrite Hcalls in Hin.
      all: assert (Ha : a = model_artifact_of (model_files d names));
        [|by rewrite Ha].
      all: apply elem_of_cons in Hin as [Hin|Hin]; [by injection Hin |].
      all: destruct finished; [|by apply elem_of_nil in Hin].
      all: apply elem_of_cons in Hin as [Hin|Hin]; [done |].
      all: unfold sweep_calls in Hin;
        apply list_elem_of_fmap in Hin as (? & ? & _); done.
    + rewrite Hno in Hin. by apply elem_of_nil in Hin.
  - intros d dirs names Hd Hwalk Hreg [run Hrun].
    destruct self as [name orun]. cbn in Hrun. subst orun.
    destruct name as [| | | |name|]; try done.
    rewrite log_model_dir_run in Hd.
    assert (Hdd : PosixPath.join module_dir ["log"; name] +:+ "/model" = d)
      by congruence.
    rewrite log_model_run, Hdd, Hwalk, Hreg. cbn zeta.
    destruct finished.
    + rewrite delete_useless_model_run. split; [done |]. cbn [snd].
      rewrite (Hcalls run). by left.
    + split; [done |]. cbn [snd]. rewrite calls_since_uploaded. by left.
Qed.

Lemma log_model_packages_enumerated_files_witness :
  let a := model_artifact_of ["/src/utils/log/test_exp/model/ckpt.pt"] in
  Wandb.CLogArtifact a ["latest"]
    ∈ calls_since (world_of with_checkpoint)
        (log_model "/src/utils" test_exp_logger false (world_of with_checkpoint)).2
  ∧ ∃ d dirs names,
      log_model_dir "/src/utils" test_exp_logger (world_of with_checkpoint)
        = (Returned d, world_of with_checkpoint)
      ∧ walk_first (w_fs (world_of with_checkpoint)) d = Some (dirs, names)
      ∧ Wandb.art_files a = model_files d names
      ∧ Wandb.art_name a = "model" ∧ Wandb.art_type a = "model".
Proof.
  assert (Hin : Wandb.CLogArtifact
                  (model_artifact_of ["/src/utils/log/test_exp/model/ckpt.pt"])
                  ["latest"]
                ∈ calls_since (world_of with_checkpoint)
                    (log_model "/src/utils" test_exp_logger false
                       (world_of with_checkpoint)).2).
  { vm_compute. left. }
  split; [exact Hin |].
  exact (proj1 (log_model_packages_enumerated_files "/src/utils" test_exp_logger
                  false (world_of with_checkpoint)) _ _ Hin).
Defined.

(** ** A directory that cannot be enumerated *)



(** ** Loading a model: [load_model] *)

Lemma for_each_print_run names w :
  for_each names print w = (Returned tt, foldl add_line w names).
Proof.
  revert w. induction names as [|f names IH]; intros w; [done |].
  cbn [for_each]. rewrite run_bind. unfold print at 1. by rewrite IH.
Qed.

Lemma foldl_add_line_calls names w :
  w_calls (foldl add_line w names) = w_calls w
  ∧ w_fs (foldl add_line w names) = w_fs w.
Proof.
  revert w. induction names as [|f names IH]; intros w; [done |].
  cbn [foldl]. by destruct (IH (add_line w f)) as [-> ->].
Qed.





(** ** Canonical paths

    The path strings of the facade's directories, related to the canonical
    locations (lists of names) that the file system resolves them to. *)

Section PathStrings.
Import PyString.

Lemma abs_path_app P Q : abs_path (P ++ Q) = abs_path P +:+ abs_path Q.
Proof.
  induction P as [|c P IH]; [done |].
  cbn [app abs_path]. rewrite IH. by rewrite !app_cons, app_nil_l, !app_assoc_s.
Qed.

Lemma abs_path_snoc P c : abs_path (P ++ [c]) = abs_path P +:+ "/" +:+ c.
Proof. rewrite abs_path_app. cbn [abs_path]. by rewrite app_nil_r_s. Qed.

Lemma canon_path_snoc P c : canon_path (P ++ [c]) = abs_path P +:+ "/" +:+ c.
Proof. rewrite <- abs_path_snoc. by destruct P. Qed.

Lemma split_sep_nosep c : has_sep c = false → split_sep c = [c].
Proof.
  induction c as [|a c IH]; [done |].
  cbn [has_sep split_sep]. intros [Ha Hc]%orb_false_iff.
  rewrite Ha, IH by done. done.
Qed.

Lemma split_sep_app_sep c s :
  has_sep c = false → split_sep (c +:+ String sep s) = c :: split_sep s.
Proof.
  induction c as [|a c IH]; [done |].
  cbn [has_sep]. intros [Ha Hc]%orb_false_iff.
  rewrite app_cons. cbn [split_sep]. rewrite Ha, IH by done. done.
Qed.

Lemma split_sep_abs_path P :
  Forall plain P → split_sep (abs_path P) = "" :: P.
Proof.
  induction 1 as [|c P Hc HP IH]; [done |].
  cbn [abs_path]. rewrite app_cons, app_nil_l. cbn [split_sep].
  replace (is_sep "/") with true by reflexivity. f_equal.
  destruct P as [|c' P].
  - cbn [abs_path]. rewrite app_nil_r_s. apply split_sep_nosep, Hc.
  - cbn [abs_path] in *. rewrite app_cons, app_nil_l in *.
    rewrite split_sep_app_sep by apply Hc.
    f_equal. cbn [split_sep] in IH.
    replace (is_sep "/") with true in IH by reflexivity. by injection IH.
Qed.

Lemma split_sep_canon_path P c :
  Forall plain P → plain c → split_sep (canon_path (P ++ [c])) = "" :: P ++ [c].
Proof.
  intros HP Hc. replace (canon_path (P ++ [c])) with (abs_path (P ++ [c]))
    by (by destruct P).
  apply split_sep_abs_path, Forall_app. by split; [|constructor].
Qed.

Lemma endswith_sep_app s c : c ≠ "" → endswith_sep (s +:+ c) = endswith_sep c.
Proof.
  intros Hc. induction s as [|a s IH]; [done |].
  rewrite app_cons. cbn [endswith_sep]. rewrite IH.
  destruct (s +:+ c) eqn:E; [|done]. destruct s, c; done.
Qed.

Lemma endswith_sep_nosep c : has_sep c = false → endswith_sep c = false.
Proof.
  induction c as [|a c IH]; [done |].
  cbn [has_sep]. intros [Ha Hc]%orb_false_iff. cbn [endswith_sep].
  rewrite IH by done. by destruct c.
Qed.

Lemma startswith_sep_nosep c : has_sep c = false → startswith_sep c = false.
Proof. destruct c as [|a c]; [done |]. cbn. by intros [Ha _]%orb_false_iff. Qed.

Lemma endswith_sep_abs_path P c :
  plain c → endswith_sep (abs_path (P ++ [c])) = false.
Proof.
  intros (Hne & _ & _ & Hsep). rewrite abs_path_snoc.
  rewrite <- app_assoc_s, endswith_sep_app by done.
  by apply endswith_sep_nosep.
Qed.

Lemma abs_path_nonempty P : P ≠ [] → abs_path P ≠ "".
Proof. by destruct P. Qed.

Lemma canon_path_nonempty P : canon_path P ≠ "".
Proof. by destruct P. Qed.

Lemma startswith_sep_canon_path P : startswith_sep (canon_path P) = true.
Proof. by destruct P. Qed.

(** [os.path.join(<location>, name)] is the path of the name's location. *)
Lemma join_step_canon_path P c :
  Forall plain P → plain c →
  PosixPath.join_step (canon_path P) c = canon_path (P ++ [c]).
Proof.
  intros HP Hc. unfold PosixPath.join_step.
  rewrite startswith_sep_nosep by apply Hc.
  rewrite bool_decide_eq_false_2 by apply canon_path_nonempty.
  rewrite canon_path_snoc.
  destruct (decide (P = [])) as [->|HPne]; [done |].
  destruct (exists_last HPne) as (P' & c' & ->).
  rewrite Forall_app, Forall_singleton in HP. destruct HP as [_ Hc'].
  replace (canon_path (P' ++ [c'])) with (abs_path (P' ++ [c']))
    by (by destruct P').
  by rewrite endswith_sep_abs_path.
Qed.

(** The location's path followed by ["/name"]. *)
Lemma canon_path_extend P c :
  P ≠ [] → canon_path P +:+ "/" +:+ c = canon_path (P ++ [c]).
Proof. intros HP. rewrite canon_path_snoc. by destruct P. Qed.

End PathStrings.

Section PathSplit.
Import PyString.

Lemma has_sep_app_sep s t : has_sep (s +:+ String sep t) = true.
Proof.
  induction s as [|a s IH]; [done |].
  rewrite app_cons. cbn [has_sep]. rewrite IH. apply orb_true_r.
Qed.

Lemma cut_last_sep_app s c :
  has_sep c = false →
  cut_last_sep (s +:+ "/" +:+ c) = (s +:+ "/", c).
Proof.
  intros Hc. induction s as [|a s IH].
  - rewrite !app_nil_l, app_cons, app_nil_l. cbn [cut_last_sep].
    rewrite Hc. done.
  - rewrite !app_cons. cbn [cut_last_sep].
    rewrite app_cons, app_nil_l in *. rewrite has_sep_app_sep, IH. done.
Qed.

Lemma rstrip_sep_app_sep s : rstrip_sep (s +:+ "/") = rstrip_sep s.
Proof.
  induction s as [|a s IH]; [done |].
  rewrite app_cons. cbn [rstrip_sep]. by rewrite IH.
Qed.

Lemma rstrip_sep_noop s : endswith_sep s = false → rstrip_sep s = s.
Proof.
  induction s as [|a s IH]; [done |].
  cbn [endswith_sep rstrip_sep]. destruct s as [|b s].
  - cbn. by intros ->.
  - intros Hs. rewrite IH by done. done.
Qed.

Lemma all_sep_abs_path c P s : plain c → all_sep (abs_path (c :: P) +:+ s) = false.
Proof.
  intros (Hne & _ & _ & Hsep). cbn [abs_path].
  rewrite !app_cons, app_nil_l. cbn [all_sep].
  destruct c as [|a c]; [done |].
  rewrite !app_cons. cbn [all_sep has_sep] in *.
  apply orb_false_iff in Hsep as [-> _]. done.
Qed.

(** [posixpath.split] of a location's path: the parent's path and the
    last name. *)
Lemma split_canon_path P c :
  Forall plain P → plain c →
  PosixPath.split (canon_path (P ++ [c])) = (canon_path P, c).
Proof.
  intros HP Hc. unfold PosixPath.split.
  rewrite canon_path_snoc, cut_last_sep_app by apply Hc.
  destruct P as [|c' P]; [done |].
  rewrite bool_decide_eq_false_2 by done.
  rewrite all_sep_abs_path by (by inversion HP).
  cbn [negb andb]. rewrite rstrip_sep_app_sep.
  f_equal. change (canon_path (c' :: P)) with (abs_path (c' :: P)).
  apply rstrip_sep_noop.
  destruct (exists_last (l := c' :: P)) as (P' & c'' & Heq); [done |].
  rewrite Heq in *. rewrite Forall_app, Forall_singleton in HP.
  apply endswith_sep_abs_path, HP.
Qed.

Lemma strip_trailing_canon_path P :
  Forall plain P → strip_trailing (canon_path P) = canon_path P.
Proof.
  intros HP. unfold strip_trailing. destruct P as [|c P]; [done |].
  cbn [canon_path].
  rewrite <- (app_nil_r_s (abs_path (c :: P))) at 1.
  rewrite all_sep_abs_path by (by inversion HP).
  apply rstrip_sep_noop.
  destruct (exists_last (l := c :: P)) as (P' & c'' & Heq); [done |].
  rewrite Heq in *. rewrite Forall_app, Forall_singleton in HP.
  apply endswith_sep_abs_path, HP.
Qed.

Lemma last_component_canon_path P c :
  Forall plain P → plain c → last_component (canon_path (P ++ [c])) = Some c.
Proof.
  intros HP Hc. unfold last_component.
  rewrite split_sep_canon_path by done.
  rewrite filter_cons_False by naive_solver.
  rewrite filter_app, filter_cons_True by apply Hc.
  by rewrite filter_nil, last_snoc.
Qed.


End PathSplit.

Example split_examples :
  PosixPath.split "/src/utils/log/test_exp" = ("/src/utils/log", "test_exp")
  ∧ PosixPath.split "/log" = ("/", "log")
  ∧ PosixPath.split "log" = ("", "log")
  ∧ PosixPath.split "/a//b/" = ("/a//b", "")
  ∧ PosixPath.join "/src/utils" ["log"; "test_exp"] = "/src/utils/log/test_exp"
  ∧ PosixPath.join "/src/utils" ["log"; "/tmp/x"] = "/tmp/x"
  ∧ PyString.slice_from 11 "artifact = run.use_artifact('m:v0')" = "run.use_artifact('m:v0')".
Proof. repeat split. Qed.

(** ** The tree *)

Section Tree.

Lemma get_app n p q : get n (p ++ q) = get n p ≫= λ m, get m q.
Proof.
  revert n. induction p as [|c p IH]; intros n; [done |].
  cbn [app get]. destruct n as [| |es]; try done.
  destruct (es !! c) as [n'|]; [apply IH | done].
Qed.

Lemma get_snoc n p c es :
  get n p = Some (Dir es) → get n (p ++ [c]) = es !! c.
Proof.
  intros Hp. rewrite get_app, Hp. cbn. by destruct (es !! c).
Qed.

(** A change below [p ++ q] shows at [p] as that change below [q]. *)
Lemma get_modify_dir g p q n :
  get (modify_dir g (p ++ q) n) p = modify_dir g q <$> get n p.
Proof.
  revert n. induction p as [|c p IH]; intros n; [done |].
  destruct n as [| |es]; try done.
  cbn [app modify_dir get]. rewrite lookup_alter_eq.
  destruct (es !! c) as [n'|]; [apply IH | done].
Qed.

Lemma get_modify_dir_here g p n es :
  get n p = Some (Dir es) → get (modify_dir g p n) p = Some (Dir (g es)).
Proof.
  intros Hp. rewrite <- (app_nil_r p) at 1. by rewrite get_modify_dir, Hp.
Qed.


Lemma get_modify_dir_above g p c n es :
  get n p = Some (Dir es) →
  get (modify_dir g (p ++ [c]) n) p = Some (Dir (alter (modify_dir g []) c es)).
Proof. intros Hp. by rewrite get_modify_dir, Hp. Qed.

(** Deleting an entry forgets every change made below it. *)
Lemma modify_dir_delete_absorb g p c q n :
  modify_dir (delete c) p (modify_dir g (p ++ c :: q) n)
  = modify_dir (delete c) p n.
Proof.
  revert n. induction p as [|c' p IH]; intros n.
  - destruct n as [| |es]; try done. cbn [app modify_dir]. f_equal.
    apply map_eq. intros k. destruct (decide (k = c)) as [->|Hk].
    + by rewrite !lookup_delete_eq.
    + by rewrite !lookup_delete_ne, lookup_alter_ne.
  - destruct n as [| |es]; try done. cbn [app modify_dir]. f_equal.
    apply map_eq. intros k. destruct (decide (k = c')) as [->|Hk].
    + rewrite !lookup_alter_eq. destruct (es !! c') as [n'|]; [|done].
      cbn. by rewrite IH.
    + by rewrite !lookup_alter_ne.
Qed.

Lemma remove_entry_snoc p c n :
  remove_entry (p ++ [c]) n = modify_dir (delete c) p n.
Proof. unfold remove_entry. by rewrite last_snoc, removelast_last. Qed.

End Tree.

(** ** Resolution of canonical paths *)

Section Resolution.
Variable on_link : list string → string → list string → resolved.
Variables (r : node) (follow : bool).

Lemma get_dir_root P es : get r P = Some (Dir es) → ∃ es0, r = Dir es0.
Proof. destruct P, r; cbn; try done; eauto. Qed.

Lemma descend_empty cur rest es :
  get r cur = Some (Dir es) →
  descend on_link r follow cur ("" :: rest) = descend on_link r follow cur rest.
Proof. intros Hcur. cbn [descend]. by rewrite Hcur. Qed.

Lemma descend_plain cur c rest es :
  plain c → get r cur = Some (Dir es) →
  descend on_link r follow cur (c :: rest) =
  match es !! c with
  | None => if all_empty rest then Vacant cur c else Failed ENOENT
  | Some (Symlink t) =>
      if follow || negb (bool_decide (rest = [])) then on_link cur t rest
      else Entry (cur ++ [c]) (Symlink t)
  | Some _ => descend on_link r follow (cur ++ [c]) rest
  end.
Proof.
  intros (H1 & H2 & H3 & _) Hcur. cbn [descend]. rewrite Hcur.
  by rewrite !bool_decide_eq_false_2 by done.
Qed.

(** Through real directories with plain names the walk goes straight down. *)
Lemma descend_dirs Q : ∀ cur rest es0 es,
  Forall plain Q →
  get r cur = Some (Dir es0) → get r (cur ++ Q) = Some (Dir es) →
  descend on_link r follow cur (Q ++ rest) = descend on_link r follow (cur ++ Q) rest.
Proof.
  induction Q as [|c Q IH]; intros cur rest es0 es HQ Hcur Hend.
  - by rewrite app_nil_r.
  - apply Forall_cons in HQ as [Hc HQ].
    assert (Hnext : ∃ es1, es0 !! c = Some (Dir es1)).
    { rewrite get_app, Hcur in Hend. cbn in Hend.
      destruct (es0 !! c) as [[| |es1]|]; [| |by eauto |]; by destruct Q. }
    destruct Hnext as [es1 Hes1].
    cbn [app]. rewrite (descend_plain _ _ _ _ Hc Hcur), Hes1.
    rewrite (cons_middle c cur Q), app_assoc in Hend |- *.
    eapply IH; [done | | done].
    by erewrite get_snoc.
Qed.

Lemma descend_end cur n :
  get r cur = Some n → descend on_link r follow cur [] = Entry cur n.
Proof. intros Hcur. cbn. by rewrite Hcur. Qed.

End Resolution.

Lemma resolve_from_unfold links r follow cur comps :
  resolve_from links r follow cur comps =
  descend
    (λ dir t rest,
       match links with
       | O => Failed ELOOP
       | S k =>
           if bool_decide (t = "") then Failed ENOENT
           else resolve_from k r follow
                  (if PyString.startswith_sep t then [] else dir)
                  (PyString.split_sep t ++ rest)
       end)
    r follow cur comps.
Proof. by destruct links. Qed.

Section ResolveCanonical.
Variables (s : fs) (P : list string) (es : gmap string node).
Hypothesis HP : Forall plain P.
Hypothesis Hdir : get (root s) P = Some (Dir es).

(** The path of a real directory resolves to it. *)
Lemma resolve_dir follow : resolve follow s (canon_path P) = Entry P (Dir es).
Proof.
  unfold resolve. rewrite bool_decide_eq_false_2 by apply canon_path_nonempty.
  rewrite startswith_sep_canon_path, resolve_from_unfold.
  destruct (get_dir_root _ _ _ Hdir) as [es0 Hroot].
  destruct P as [|c P'] eqn:HPeq.
  - cbn [canon_path]. change (PyString.split_sep "/") with ["" ; ""].
    rewrite Hroot in *.
    rewrite !(descend_empty _ _ _ [] _ es0) by done.
    by apply descend_end.
  - rewrite <- HPeq in *. replace (canon_path P) with (abs_path P) by (by subst).
    rewrite split_sep_abs_path by done.
    rewrite (descend_empty _ _ _ [] _ es0) by (by rewrite Hroot).
    rewrite <- (app_nil_r P) at 1.
    erewrite (descend_dirs _ _ _ P []); [| done | by rewrite Hroot | done].
    by apply descend_end.
Qed.

(** Below a real directory, the last step decides. *)
Lemma resolve_child follow c :
  plain c →
  follow = false ∨ (∀ t, es !! c ≠ Some (Symlink t)) →
  resolve follow s (canon_path (P ++ [c])) =
  match es !! c with
  | None => Vacant P c
  | Some n => Entry (P ++ [c]) n
  end.
Proof.
  intros Hc Hlink. unfold resolve.
  rewrite bool_decide_eq_false_2 by apply canon_path_nonempty.
  rewrite startswith_sep_canon_path, resolve_from_unfold.
  rewrite split_sep_canon_path by done.
  destruct (get_dir_root _ _ _ Hdir) as [es0 Hroot].
  rewrite (descend_empty _ _ _ [] _ es0) by (by rewrite Hroot).
  erewrite (descend_dirs _ _ _ P []); [| done | by rewrite Hroot | done].
  cbn [app]. rewrite (descend_plain _ _ _ _ _ _ _ Hc Hdir).
  destruct (es !! c) as [n|] eqn:Hn; [|done].
  destruct n as [|t|es'].
  - apply descend_end. by erewrite get_snoc.
  - destruct Hlink as [->|Hlink]; [done | by destruct (Hlink t)].
  - apply descend_end. by erewrite get_snoc.
Qed.


End ResolveCanonical.

(** ** The file operations on canonical paths *)

Lemma set_root_set_root s r1 r2 : set_root (set_root s r1) r2 = set_root s r2.
Proof. reflexivity. Qed.

Lemma set_fs_set_fs w s1 s2 : set_fs (set_fs w s1) s2 = set_fs w s2.
Proof. reflexivity. Qed.

Lemma set_fs_same w : set_fs w (set_root (w_fs w) (root (w_fs w))) = w.
Proof. by destruct w as [[] ? ? ? ?]. Qed.



Lemma with_root_same w : with_root w (root (w_fs w)) = w.
Proof. apply set_fs_same. Qed.

Lemma remove_file_dir_missing p w :
  exists_ (w_fs w) p = false → remove_file_dir p w = (Returned false, w).
Proof.
  intros Hex. unfold remove_file_dir. rewrite run_bind.
  unfold os_path_exists. by rewrite Hex.
Qed.

Section RemoveChild.
Variables (w : world) (P : list string) (es : gmap string node) (c : string).
Hypothesis HP : Forall plain P.
Hypothesis Hc : plain c.
Hypothesis Hdir : get (root (w_fs w)) P = Some (Dir es).

Let path := canon_path (P ++ [c]).
Let removed := with_root w (modify_dir (delete c) P (root (w_fs w))).

Lemma unlink_child n :
  es !! c = Some n → (∀ es', n ≠ Dir es') →
  os_unlink path w = (Returned tt, removed).
Proof.
  intros Hn Hnd. unfold os_unlink, unlink, lstat, path.
  rewrite (resolve_child _ _ _ HP Hdir) by auto. rewrite Hn.
  unfold lift_fs_result. rewrite remove_entry_snoc.
  destruct n; try done. by destruct (Hnd entries).
Qed.

Lemma rmtree_child es' :
  es !! c = Some (Dir es') →
  shutil_rmtree path w = (Returned tt, removed).
Proof.
  intros Hn. unfold shutil_rmtree, rmtree, lstat, path.
  rewrite (resolve_child _ _ _ HP Hdir) by auto. rewrite Hn.
  set (s1 := set_root (w_fs w) (modify_dir (λ _, ∅) (P ++ [c]) (root (w_fs w)))).
  assert (Hdir1 : get (root s1) P
                  = Some (Dir (alter (modify_dir (λ _, ∅) []) c es)))
    by (by apply get_modify_dir_above).
  unfold rmdir. rewrite last_component_canon_path by done.
  destruct Hc as (_ & Hdot & Hdotdot & _).
  rewrite !bool_decide_eq_false_2 by done. cbn [orb].
  rewrite strip_trailing_canon_path
    by (apply Forall_app; split; [done | by constructor]).
  unfold lstat. rewrite (resolve_child _ _ _ HP Hdir1) by auto.
  rewrite lookup_alter_eq, Hn. cbn [fmap option_fmap option_map modify_dir].
  rewrite bool_decide_eq_true_2 by done.
  unfold lift_fs_effect, removed, with_root. subst s1.
  rewrite remove_entry_snoc. cbn [root set_root].
  rewrite <- (app_nil_r (P ++ [c])) at 1. rewrite <- app_assoc. cbn [app].
  by rewrite modify_dir_delete_absorb.
Qed.

(** [remove_file_dir] on the entry: a free name stays free, a file or a
    directory is removed, a symbolic link is removed when it resolves and
    left alone when it dangles. *)
Lemma remove_file_dir_child :
  remove_file_dir path w =
  match es !! c with
  | None => (Returned false, w)
  | Some (Symlink _) =>
      if exists_ (w_fs w) path then (Returned true, removed) else (Returned false, w)
  | Some _ => (Returned true, removed)
  end.
Proof.
  destruct (es !! c) as [n|] eqn:Hn.
  2:{ apply remove_file_dir_missing. unfold exists_, stat. fold path.
      unfold path. rewrite (resolve_child _ _ _ HP Hdir)
        by (auto; right; intros t; by rewrite Hn).
      by rewrite Hn. }
  unfold remove_file_dir. rewrite run_bind. unfold os_path_exists at 1.
  destruct n as [|t|es'].
  - assert (Hst : stat (w_fs w) path = Entry (P ++ [c]) File).
    { unfold stat, path.
      rewrite (resolve_child _ _ _ HP Hdir) by (auto; right; intros t; by rewrite Hn).
      by rewrite Hn. }
    unfold exists_. rewrite Hst. cbn [negb]. rewrite run_bind.
    unfold os_path_isfile at 1, isfile. rewrite Hst.
    rewrite run_bind, run_ret, run_bind.
    by rewrite (unlink_child File).
  - assert (Hlink : islink (w_fs w) path = true).
    { unfold islink, lstat, path.
      rewrite (resolve_child _ _ _ HP Hdir) by auto. by rewrite Hn. }
    destruct (exists_ (w_fs w) path); [|done]. cbn [negb].
    rewrite run_bind. unfold os_path_isfile at 1.
    destruct (isfile (w_fs w) path).
    + rewrite run_bind, run_ret, run_bind. by rewrite (unlink_child (Symlink t)).
    + rewrite run_bind. unfold os_path_islink at 1. rewrite Hlink, run_bind.
      by rewrite (unlink_child (Symlink t)).
  - assert (Hst : stat (w_fs w) path = Entry (P ++ [c]) (Dir es')).
    { unfold stat, path.
      rewrite (resolve_child _ _ _ HP Hdir) by (auto; right; intros t; by rewrite Hn).
      by rewrite Hn. }
    assert (Hlink : islink (w_fs w) path = false).
    { unfold islink, lstat, path.
      rewrite (resolve_child _ _ _ HP Hdir) by auto. by rewrite Hn. }
    unfold exists_. rewrite Hst. cbn [negb]. rewrite run_bind.
    unfold os_path_isfile at 1, isfile. rewrite Hst.
    rewrite run_bind. unfold os_path_islink at 1. rewrite Hlink, run_bind.
    by rewrite (rmtree_child es').
Qed.



End RemoveChild.

Section MakeDirs.
Variables (w : world) (P : list string) (es : gmap string node) (c : string).
Hypothesis HP : Forall plain P.
Hypothesis Hc : plain c.
Hypothesis Hdir : get (root (w_fs w)) P = Some (Dir es).
Hypothesis Hfree : es !! c = None.








End MakeDirs.

(** ** Construction: the log directory is reset *)

Lemma plain_log : plain "log".
Proof. by repeat split. Qed.

Lemma plain_dataset : plain "dataset".
Proof. by repeat split. Qed.

Lemma plain_model : plain "model".
Proof. by repeat split. Qed.

Section Reset.
Variables (B : list string) (name : string).
Hypothesis HB : Forall plain B.
Hypothesis Hname : plain name.

Let Lg := B ++ ["log"].
Let L := Lg ++ [name].
Let self := {| project_name := PyStr name; _run := None |}.

Lemma plain_Lg : Forall plain Lg.
Proof. apply Forall_app. split; [done |]. constructor; [apply plain_log | done]. Qed.

Lemma plain_L : Forall plain L.
Proof. apply Forall_app. split; [apply plain_Lg |]. by constructor. Qed.

Lemma join_log_canon :
  PosixPath.join (canon_path B) ["log"; name] = canon_path L.
Proof.
  unfold PosixPath.join. cbn [foldl].
  rewrite (join_step_canon_path B "log") by (done || apply plain_log).
  by rewrite (join_step_canon_path (B ++ ["log"]) name) by (done || apply plain_Lg).
Qed.

Lemma L_nonempty : L ≠ [].
Proof. unfold L. by destruct Lg. Qed.

Lemma log_dir_canon w :
  log_dir (canon_path B) self w = (Returned (canon_path L), w).
Proof. unfold self. by rewrite log_dir_run, join_log_canon. Qed.

Lemma log_dataset_dir_canon w :
  log_dataset_dir (canon_path B) self w
  = (Returned (canon_path (L ++ ["dataset"])), w).
Proof.
  unfold self. rewrite log_dataset_dir_run, join_log_canon.
  by rewrite <- (canon_path_extend L "dataset") by apply L_nonempty.
Qed.

Lemma log_model_dir_canon w :
  log_model_dir (canon_path B) self w
  = (Returned (canon_path (L ++ ["model"])), w).
Proof.
  unfold self. rewrite log_model_dir_run, join_log_canon.
  by rewrite <- (canon_path_extend L "model") by apply L_nonempty.
Qed.







End Reset.




(** The other ways in which the constructor stops short.  A name that is not
    a string makes [os.path.join] raise [TypeError]. *)
Example init_rejects_a_number :
  __init__ "/src/utils" {["logger_name" := PyInt 5]} (world_of checkout)
  = (Raised TypeError, world_of checkout).
Proof. vm_compute. reflexivity. Qed.

(** A dangling symbolic link at the log path: [os.path.exists] is false for
    it, so [remove_file_dir] leaves it, and [os.makedirs] finds the name
    taken. *)
Example remove_file_dir_leaves_a_dangling_link :
  remove_file_dir "/src/utils/log/test_exp" (world_of dangling_log_dir)
  = (Returned false, world_of dangling_log_dir)
  ∧ islink (w_fs (world_of dangling_log_dir)) "/src/utils/log/test_exp" = true.
Proof. split; vm_compute; reflexivity. Qed.

Example init_stopped_by_a_dangling_link :
  __init__ "/src/utils" {["logger_name" := PyStr "test_exp"]}
    (world_of dangling_log_dir)
  = (Raised FileExistsError, world_of dangling_log_dir).
Proof. vm_compute. reflexivity. Qed.

(** The name ["."] makes the log path the [log] directory itself, which
    [shutil.rmtree] empties but cannot remove. *)
Example init_stopped_by_dot :
  (__init__ "/src/utils" {["logger_name" := PyStr "."]} (world_of stale_checkout)).1
  = Raised OSError.
Proof. vm_compute. reflexivity. Qed.

(** ** [makedirs] never runs out of fuel

    The recursion of [os.makedirs] is on the head of [posixpath.split], and
    that head is shorter than the name whenever the tail is not empty, so
    the bound [S (length name)] is never reached: any two bounds above the
    length give the same result. *)

Section MakedirsFuel.
Import PyString.

Lemma length_cut_last_sep s :
  String.length (cut_last_sep s).1 + String.length (cut_last_sep s).2
  = String.length s.
Proof.
  induction s as [|a s IH]; [done |].
  cbn [cut_last_sep]. destruct (has_sep s).
  - destruct (cut_last_sep s) as [h t]. cbn in *. lia.
  - destruct (is_sep a); cbn; lia.
Qed.

Lemma length_rstrip_sep s : String.length (rstrip_sep s) ≤ String.length s.
Proof.
  induction s as [|a s IH]; [done |].
  cbn [rstrip_sep]. destruct (rstrip_sep s); [destruct (is_sep a) |]; cbn in *; lia.
Qed.

Lemma length_split p :
  String.length (PosixPath.split p).1 + String.length (PosixPath.split p).2
  ≤ String.length p.
Proof.
  unfold PosixPath.split. pose proof (length_cut_last_sep p) as Hcut.
  destruct (cut_last_sep p) as [h t]. cbn [fst snd] in Hcut.
  destruct (negb (bool_decide (h = "")) && negb (all_sep h)); cbn [fst snd].
  - pose proof (length_rstrip_sep h). lia.
  - lia.
Qed.

Lemma makedirs_go_fuel fuel1 : ∀ fuel2 exist_ok s name,
  String.length name < fuel1 → String.length name < fuel2 →
  makedirs_go fuel1 exist_ok s name = makedirs_go fuel2 exist_ok s name.
Proof.
  induction fuel1 as [|fuel1 IH]; intros fuel2 exist_ok s name H1 H2; [lia |].
  destruct fuel2 as [|fuel2]; [lia |].
  cbn [makedirs_go].
  pose proof (length_split name) as Hlen.
  destruct (PosixPath.split name) as [head tail]. cbn [fst snd] in Hlen.
  destruct (bool_decide (tail = "")) eqn:Htail.
  - pose proof (length_split head) as Hlen'.
    destruct (PosixPath.split head) as [head' tail']. cbn [fst snd] in Hlen'.
    destruct (bool_decide (head' = "")); [done |].
    destruct (bool_decide (tail' = "")) eqn:Htail'; [done |].
    destruct (exists_ s head'); [done |]. cbn [negb andb].
    apply bool_decide_eq_false in Htail'.
    assert (0 < String.length tail') by (destruct tail'; [done | cbn; lia]).
    by rewrite (IH fuel2) by lia.
  - rewrite ?Htail. destruct (bool_decide (head = "")); [done |].
    destruct (exists_ s head); [done |]. cbn [negb andb].
    apply bool_decide_eq_false in Htail.
    assert (0 < String.length tail) by (destruct tail; [done | cbn; lia]).
    by rewrite (IH fuel2) by lia.
Qed.

(** [makedirs] satisfies the recursive equation of [os.makedirs] itself. *)
Lemma makedirs_unfold exist_ok s name :
  makedirs exist_ok s name =
  let '(head, tail) := PosixPath.split name in
  let '(head, tail) :=
    if bool_decide (tail = "") then PosixPath.split head else (head, tail) in
  let final (s : fs) :=
    match mkdir s name with
    | inr s' => (None, s')
    | inl e =>
        if negb exist_ok || negb (isdir s name) then (Some e, s) else (None, s)
    end in
  if negb (bool_decide (head = "")) && negb (bool_decide (tail = ""))
     && negb (exists_ s head)
  then
    match makedirs exist_ok s head with
    | (Some FileExistsError, s1) =>
        if bool_decide (tail = ".") then (None, s1) else final s1
    | (Some e, s1) => (Some e, s1)
    | (None, s1) => if bool_decide (tail = ".") then (None, s1) else final s1
    end
  else final s.
Proof.
  unfold makedirs at 1. cbn [makedirs_go].
  pose proof (length_split name) as Hlen.
  destruct (PosixPath.split name) as [head tail]. cbn [fst snd] in Hlen.
  destruct (bool_decide (tail = "")) eqn:Htail.
  - pose proof (length_split head) as Hlen'.
    destruct (PosixPath.split head) as [head' tail']. cbn [fst snd] in Hlen'.
    destruct (bool_decide (head' = "")); [done |].
    destruct (bool_decide (tail' = "")) eqn:Htail'; [done |].
    destruct (exists_ s head'); [done |]. cbn [negb andb].
    apply bool_decide_eq_false in Htail'.
    assert (0 < String.length tail') by (destruct tail'; [done | cbn; lia]).
    unfold makedirs.
    by rewrite (makedirs_go_fuel (String.length name) (S (String.length head')))
      by lia.
  - rewrite ?Htail. destruct (bool_decide (head = "")); [done |].
    destruct (exists_ s head); [done |]. cbn [negb andb].
    apply bool_decide_eq_false in Htail.
    assert (0 < String.length tail) by (destruct tail; [done | cbn; lia]).
    unfold makedirs.
    by rewrite (makedirs_go_fuel (String.length name) (S (String.length head)))
      by lia.
Qed.

End MakedirsFuel.

(** ** The names of the log directory, in every case *)




(** ** Removal *)

(** A change of one entry of the directory at [P] shows nowhere outside that
    entry. *)
Lemma get_modify_dir_frame g c P : ∀ Q r,
  (∀ es c', c' ≠ c → g es !! c' = es !! c') →
  ¬ (P ++ [c]) `prefix_of` Q → ¬ Q `prefix_of` P →
  get (modify_dir g P r) Q = get r Q.
Proof.
  induction P as [|p P IH]; intros Q r Hg HnQ HnP.
  - destruct Q as [|q Q]; [by destruct HnP |].
    destruct r as [| |es]; try done. cbn [modify_dir get].
    rewrite Hg; [done |]. intros ->. apply HnQ. by apply prefix_cons, prefix_nil.
  - destruct Q as [|q Q]; [destruct HnP; apply prefix_nil |].
    destruct r as [| |es]; try done. cbn [modify_dir get].
    destruct (decide (q = p)) as [->|Hq].
    + rewrite lookup_alter_eq. destruct (es !! p) as [n|]; [|done]. cbn.
      apply IH; [done | |].
      * intros ?. apply HnQ. by apply prefix_cons.
      * intros ?. apply HnP. by apply prefix_cons.
    + by rewrite lookup_alter_ne.
Qed.

Lemma get_delete_frame c P Q r :
  ¬ (P ++ [c]) `prefix_of` Q → ¬ Q `prefix_of` P →
  get (modify_dir (delete c) P r) Q = get r Q.
Proof.
  intros HnQ HnP. apply (get_modify_dir_frame _ c); [| done..].
  intros es c' Hc'. by rewrite lookup_delete_ne.
Qed.


(** X3. [remove_file_dir] on an entry [c] of a real directory.  It returns
    [True] exactly when [os.path.exists] holds for the path; the entry is
    then gone and the other entries of the directory are as they were.  It
    returns [False] and changes nothing otherwise, and that includes a
    dangling symbolic link, which stays in place.  In every case nothing
    outside the entry changes: removing a symbolic link to a directory keeps
    the directory it points to. *)
Theorem remove_file_dir_entry :
  ∀ w P es c,
    Forall plain P → plain c →
    get (root (w_fs w)) P = Some (Dir es) →
    let path := canon_path (P ++ [c]) in
    ∃ r',
      remove_file_dir path w
        = (Returned (exists_ (w_fs w) path), with_root w r')
      ∧ (exists_ (w_fs w) path = true → get r' P = Some (Dir (delete c es)))
      ∧ (exists_ (w_fs w) path = false → r' = root (w_fs w))
      ∧ (∀ t, es !! c = Some (Symlink t) → exists_ (w_fs w) path = false →
              islink (w_fs (with_root w r')) path = true)
      ∧ (∀ Q, ¬ (P ++ [c]) `prefix_of` Q → ¬ Q `prefix_of` P →
              get r' Q = get (root (w_fs w)) Q).
Proof.
  intros w P es c HP Hc Hdir path.
  pose proof (remove_file_dir_child w P es c HP Hc Hdir) as Hrun.
  assert (Hex : exists_ (w_fs w) path =
                match es !! c with
                | None => false
                | Some (Symlink _) => exists_ (w_fs w) path
                | Some _ => true
                end).
  { destruct (es !! c) as [[|t|es']|] eqn:Hn; try done; unfold exists_, stat, path;
      rewrite (resolve_child _ _ _ HP Hdir) by (auto; right; intros t; by rewrite Hn);
      by rewrite Hn. }
  fold path in Hrun.
  destruct (exists_ (w_fs w) path) eqn:Hpath.
  - exists (modify_dir (delete c) P (root (w_fs w))).
    split_and!; try done.
    + rewrite Hrun. by destruct (es !! c) as [[|t|es']|].
    + intros _. by apply get_modify_dir_here.
    + intros Q HnQ HnP. by apply get_delete_frame.
  - exists (root (w_fs w)). rewrite with_root_same.
    split_and!; try done.
    + rewrite Hrun. by destruct (es !! c) as [[|t|es']|].
    + intros t Hn _. unfold islink, lstat, path.
      rewrite (resolve_child _ _ _ HP Hdir) by auto. by rewrite Hn.
Qed.

(** The stale checkpoint directory is removed; the stray file beside it
    stays. *)
Lemma remove_file_dir_entry_witness :
  let w := world_of stale_checkout in
  ∃ r', remove_file_dir "/src/utils/log/test_exp/model" w
          = (Returned true, with_root w r')
        ∧ get r' ["src"; "utils"; "log"; "test_exp"; "model"] = None
        ∧ get r' ["src"; "utils"; "log"; "test_exp"; "notes.txt"] = Some File.
Proof.
  intros w.
  destruct (remove_file_dir_entry w ["src"; "utils"; "log"; "test_exp"]
              (<["model" := Dir (<["ckpt.pt" := File]> ∅)]>
                 (<["dataset" := Symlink "/mnt/data"]>
                    (<["notes.txt" := File]> ∅))) "model")
    as (r' & Hrun & Hgone & _ & _ & Hframe).
  - by repeat (constructor || split).
  - by repeat split.
  - vm_compute. reflexivity.
  - exists r'. split_and!.
    + change "/src/utils/log/test_exp/model"
        with (canon_path (["src"; "utils"; "log"; "test_exp"] ++ ["model"])).
      rewrite Hrun. f_equal.
    + change ["src"; "utils"; "log"; "test_exp"; "model"]
        with (["src"; "utils"; "log"; "test_exp"] ++ ["model"]).
      erewrite get_snoc by (apply Hgone; vm_compute; reflexivity).
      apply lookup_delete_eq.
    + rewrite Hframe; [vm_compute; reflexivity | |].
      * intros [k Hk]. by injection Hk.
      * intros [k Hk]. by injection Hk.
Defined.

(** ** Listing *)

(** The path of an entry of a real directory resolves as the entry's name
    does from that directory. *)
Lemma resolve_entry s P es c follow :
  Forall plain P → get (root s) P = Some (Dir es) → plain c →
  resolve follow s (canon_path (P ++ [c])) =
  resolve_from MAXSYMLINKS (root s) follow P [c].
Proof.
  intros HP Hdir Hc. unfold resolve.
  rewrite bool_decide_eq_false_2 by apply canon_path_nonempty.
  rewrite startswith_sep_canon_path, !resolve_from_unfold.
  rewrite split_sep_canon_path by done.
  destruct (get_dir_root _ _ _ Hdir) as [es0 Hroot].
  rewrite (descend_empty _ _ _ [] _ es0) by (by rewrite Hroot).
  by erewrite (descend_dirs _ _ _ P []); [| done | by rewrite Hroot | done].
Qed.

Lemma entry_is_dir_isdir s P es c n :
  Forall plain P → get (root s) P = Some (Dir es) → plain c →
  es !! c = Some n →
  entry_is_dir s P c n = isdir s (canon_path (P ++ [c])).
Proof.
  intros HP Hdir Hc Hn. unfold isdir, stat.
  destruct n as [|t|es']; cbn [entry_is_dir].
  - rewrite (resolve_child _ _ _ HP Hdir) by (auto; right; intros t; by rewrite Hn).
    by rewrite Hn.
  - by rewrite (resolve_entry _ _ _ _ _ HP Hdir Hc).
  - rewrite (resolve_child _ _ _ HP Hdir) by (auto; right; intros t; by rewrite Hn).
    by rewrite Hn.
Qed.

(** X4. On a real directory [get_file_names_in_directory] returns, without
    repetition, exactly the names of the directory's own entries that are
    not directories: regular files, and symbolic links unless they lead to a
    directory (a dangling link is listed).  Nothing below a subdirectory is
    listed, and nothing is printed or changed. *)
Theorem get_file_names_lists_non_directories :
  ∀ w P es,
    Forall plain P →
    get (root (w_fs w)) P = Some (Dir es) →
    (∀ c, is_Some (es !! c) → plain c) →
    ∃ names,
      get_file_names_in_directory (canon_path P) w = (Returned names, w)
      ∧ NoDup names
      ∧ ∀ c, c ∈ names ↔
             is_Some (es !! c) ∧ isdir (w_fs w) (canon_path (P ++ [c])) = false.
Proof.
  intros w P es HP Hdir Hes.
  rewrite get_file_names_run. unfold walk_first, stat.
  rewrite (resolve_dir _ _ _ HP Hdir). cbv zeta.
  eexists. split; [done |]. split.
  - apply (sublist_NoDup _ ((map_to_list es).*1));
      [apply NoDup_fst_map_to_list | apply fmap_sublist, sublist_filter].
  - intros c. rewrite list_elem_of_fmap. split.
    + intros ([c' n] & -> & Hin). apply list_elem_of_filter in Hin as [Hnd Hin].
      apply elem_of_map_to_list in Hin. cbn [fst snd] in *.
      split; [by eexists |].
      by rewrite <- (entry_is_dir_isdir _ _ _ _ _ HP Hdir (Hes _ (mk_is_Some _ _ Hin)) Hin).
    + intros [[n Hn] Hnd]. exists (c, n). split; [done |].
      apply list_elem_of_filter. split; [| by apply elem_of_map_to_list].
      cbn [fst snd].
      by rewrite (entry_is_dir_isdir _ _ _ _ _ HP Hdir (Hes _ (mk_is_Some _ _ Hn)) Hn).
Qed.

Lemma get_file_names_lists_non_directories_witness :
  let w := world_of stale_checkout in
  ∃ names,
    get_file_names_in_directory "/src/utils/log/test_exp" w = (Returned names, w)
    ∧ NoDup names
    ∧ ∀ c, c ∈ names ↔
           is_Some ((<["model" := Dir (<["ckpt.pt" := File]> ∅)]>
                       (<["dataset" := Symlink "/mnt/data"]>
                          (<["notes.txt" := File]> ∅)) : gmap string node) !! c)
           ∧ isdir (w_fs w) (canon_path (["src"; "utils"; "log"; "test_exp"] ++ [c]))
             = false.
Proof.
  intros w.
  apply (get_file_names_lists_non_directories w ["src"; "utils"; "log"; "test_exp"]).
  - by repeat (constructor || split).
  - vm_compute. reflexivity.
  - intros c [n Hn].
    destruct (decide (c = "model")) as [->|?]; [by repeat split |].
    rewrite lookup_insert_ne in Hn by done.
    destruct (decide (c = "dataset")) as [->|?]; [by repeat split |].
    rewrite lookup_insert_ne in Hn by done.
    destruct (decide (c = "notes.txt")) as [->|?]; [by repeat split |].
    by rewrite lookup_insert_ne in Hn.
Defined.

(** ** The time stamp *)

Lemma length_app_s (s t : string) :
  String.length (s +:+ t) = String.length s + String.length t.
Proof. induction s as [|a s IH]; [done |]. rewrite app_cons. cbn. by rewrite IH. Qed.

Lemma all_chars_app p (s t : string) :
  all_chars p (s +:+ t) = all_chars p s && all_chars p t.
Proof.
  induction s as [|a s IH]; [done |]. rewrite app_cons. cbn.
  by rewrite IH, andb_assoc.
Qed.

(** Texts of one length that start two equal texts are equal, and so are
    the rests. *)
Lemma app_inj_length (s1 s2 t1 t2 : string) :
  String.length s1 = String.length s2 →
  s1 +:+ t1 = s2 +:+ t2 → s1 = s2 ∧ t1 = t2.
Proof.
  revert s2. induction s1 as [|a s1 IH]; intros [|b s2] Hlen Heq; try done.
  rewrite !app_cons in Heq. injection Heq as -> Heq.
  destruct (IH s2) as [-> ->]; [by injection Hlen | done | done].
Qed.

Lemma below_forallb (p : nat → bool) lo len n :
  forallb p (seq lo len) = true → lo ≤ n < lo + len → p n = true.
Proof.
  intros Hall Hn. rewrite forallb_forall in Hall. apply Hall, in_seq. lia.
Qed.

Lemma pad2_shape n :
  n < 100 →
  String.length (PyString.pad2 n) = 2
  ∧ all_chars digit_or_hyphen (PyString.pad2 n) = true.
Proof.
  intros Hn.
  pose proof (below_forallb
    (λ n, (String.length (PyString.pad2 n) =? 2)
          && all_chars digit_or_hyphen (PyString.pad2 n)) 0 100 n) as H.
  apply andb_prop in H as [H1 H2]; [| by vm_compute | lia].
  by apply Nat.eqb_eq in H1.
Qed.

Lemma year_shape n :
  (1000 ≤ Z.of_nat n ≤ 9999)%Z →
  String.length (pretty n) = 4 ∧ all_chars digit_or_hyphen (pretty n) = true.
Proof.
  intros Hn.
  pose proof (below_forallb
    (λ n, (String.length (pretty n) =? 4)
          && all_chars digit_or_hyphen (pretty n)) (Z.to_nat 1000) (Z.to_nat 9000) n) as H.
  apply andb_prop in H as [H1 H2]; [| by vm_compute | lia].
  by apply Nat.eqb_eq in H1.
Qed.

Lemma pad2_inj n m :
  n < 100 → m < 100 → PyString.pad2 n = PyString.pad2 m → n = m.
Proof.
  intros Hn Hm Heq.
  pose proof (below_forallb
    (λ n, forallb (λ m, implb (String.eqb (PyString.pad2 n) (PyString.pad2 m))
                          (n =? m)) (seq 0 100)) 0 100 n) as H.
  pose proof (below_forallb _ 0 100 m (H ltac:(by vm_compute) ltac:(lia))
                ltac:(lia)) as H'.
  cbv beta in H'. rewrite Heq, String.eqb_refl in H'. by apply Nat.eqb_eq in H'.
Qed.

(** X5. The stamp of [get_formatted_date_time] for an instant with a
    four-digit year is made of 19 characters, each a decimal digit or a
    hyphen: day, month, year, hour, minute and second in numbers (the month
    is not spelled out, although the docstring's example shows ["May"]).
    The clock is only read. *)
Theorem stamp_is_numeric :
  ∀ w, four_digit_instant (w_clock w) →
    ∃ stamp,
      get_formatted_date_time w = (Returned stamp, w)
      ∧ String.length stamp = 19
      ∧ all_chars digit_or_hyphen stamp = true.
Proof.
  intros w (Hy & Hm & Hd & Hh & Hmi & Hs).
  exists (strftime_dmYHMS (w_clock w)). split; [done |].
  unfold strftime_dmYHMS.
  destruct (pad2_shape (day (w_clock w))) as [Hl1 Hc1]; [lia |].
  destruct (pad2_shape (month (w_clock w))) as [Hl2 Hc2]; [lia |].
  destruct (year_shape (year (w_clock w))) as [Hl3 Hc3]; [lia |].
  destruct (pad2_shape (hour (w_clock w))) as [Hl4 Hc4]; [lia |].
  destruct (pad2_shape (minute (w_clock w))) as [Hl5 Hc5]; [lia |].
  destruct (pad2_shape (second (w_clock w))) as [Hl6 Hc6]; [lia |].
  rewrite !length_app_s, !all_chars_app.
  rewrite Hl1, Hl2, Hl3, Hl4, Hl5, Hl6, Hc1, Hc2, Hc3, Hc4, Hc5, Hc6. done.
Qed.

Lemma stamp_is_numeric_witness :
  four_digit_instant some_clock
  ∧ ∃ stamp,
      get_formatted_date_time (world_of checkout)
        = (Returned stamp, world_of checkout)
      ∧ String.length stamp = 19
      ∧ all_chars digit_or_hyphen stamp = true.
Proof.
  assert (H : four_digit_instant some_clock) by (unfold four_digit_instant; cbn; lia).
  split; [exact H |]. exact (stamp_is_numeric (world_of checkout) H).
Defined.

(** X6. Two instants with four-digit years that get the same stamp are the
    same instant, to the second: the alias ["finished-<stamp>"] that
    [log_model] derives from it names one second. *)
Theorem stamp_identifies_the_second :
  ∀ w1 w2 stamp,
    four_digit_instant (w_clock w1) → four_digit_instant (w_clock w2) →
    get_formatted_date_time w1 = (Returned stamp, w1) →
    get_formatted_date_time w2 = (Returned stamp, w2) →
    w_clock w1 = w_clock w2.
Proof.
  intros w1 w2 stamp (Hy1 & Hm1 & Hd1 & Hh1 & Hmi1 & Hs1)
    (Hy2 & Hm2 & Hd2 & Hh2 & Hmi2 & Hs2) H1 H2.
  assert (Heq : strftime_dmYHMS (w_clock w1) = strftime_dmYHMS (w_clock w2)).
  { change (get_formatted_date_time w1)
      with (Returned (strftime_dmYHMS (w_clock w1)) : outcome string, w1) in H1.
    change (get_formatted_date_time w2)
      with (Returned (strftime_dmYHMS (w_clock w2)) : outcome string, w2) in H2.
    congruence. }
  destruct (w_clock w1) as [y1 m1 d1 h1 mi1 s1], (w_clock w2) as [y2 m2 d2 h2 mi2 s2].
  cbn [year month day hour minute second] in *.
  unfold strftime_dmYHMS in Heq. cbn [year month day hour minute second] in Heq.
  pose proof (λ n H, proj1 (pad2_shape n H)) as Hp.
  pose proof (λ n H, proj1 (year_shape n H)) as Hyl.
  apply app_inj_length in Heq as [Hd Heq]; [| rewrite !Hp by lia; done].
  apply (app_inj_length "-" "-") in Heq as [_ Heq]; [| done].
  apply app_inj_length in Heq as [Hm Heq]; [| rewrite !Hp by lia; done].
  apply (app_inj_length "-" "-") in Heq as [_ Heq]; [| done].
  apply app_inj_length in Heq as [Hy Heq]; [| rewrite !Hyl by lia; done].
  apply (app_inj_length "-" "-") in Heq as [_ Heq]; [| done].
  apply app_inj_length in Heq as [Hh Heq]; [| rewrite !Hp by lia; done].
  apply (app_inj_length "-" "-") in Heq as [_ Heq]; [| done].
  apply app_inj_length in Heq as [Hmi Heq]; [| rewrite !Hp by lia; done].
  apply (app_inj_length "-" "-") in Heq as [_ Hs]; [| done].
  apply pad2_inj in Hd, Hm, Hh, Hmi, Hs; try lia.
  apply (inj pretty) in Hy. by subst.
Qed.

Lemma stamp_identifies_the_second_witness :
  w_clock (world_of checkout) = w_clock (world_of stale_checkout).
Proof.
  assert (H : four_digit_instant some_clock) by (unfold four_digit_instant; cbn; lia).
  exact (stamp_identifies_the_second (world_of checkout) (world_of stale_checkout)
           "05-05-2021-22-14-31" H H eq_refl eq_refl).
Defined.

(** ** What the cleanup deletes *)

Lemma sweep_history vs r :
  Wandb.history (sweep vs r) = Wandb.history r
  ∧ Wandb.next_id (sweep vs r) = Wandb.next_id r.
Proof.
  revert r. induction vs as [|v vs IH]; intros r; [done |].
  rewrite sweep_cons. destruct (IH (if bool_decide (aliasless v)
                                     then Wandb.delete_version v r else r)) as [-> ->].
  by destruct (bool_decide _).
Qed.

Lemma filter_iff_in {A} (P Q : A → Prop) `{!∀ x, Decision (P x), !∀ x, Decision (Q x)}
    (l : list A) :
  (∀ x, x ∈ l → P x ↔ Q x) → filter P l = filter Q l.
Proof.
  induction l as [|x l IH]; intros Hl; [done |].
  rewrite !filter_cons, IH by (intros y ?; apply Hl; by right).
  destruct (decide (P x)) as [HP|HP], (decide (Q x)) as [HQ|HQ]; try done.
  - destruct HQ. apply Hl; [by left | done].
  - destruct HP. apply Hl; [by left | done].
Qed.

Lemma NoDup_fmap_elem_inj {A B} (f : A → B) (l : list A) x y :
  NoDup (f <$> l) → x ∈ l → y ∈ l → f x = f y → x = y.
Proof.
  induction l as [|z l IH]; intros Hnd Hx Hy Hf; [by apply elem_of_nil in Hx |].
  rewrite fmap_cons in Hnd. apply NoDup_cons in Hnd as [Hz Hnd].
  apply elem_of_cons in Hx as [->|Hx], Hy as [->|Hy]; try done.
  - destruct Hz. rewrite Hf. apply list_elem_of_fmap. by exists y.
  - destruct Hz. rewrite <- Hf. apply list_elem_of_fmap. by exists x.
  - by apply IH.
Qed.

(** With distinct ids, the loop over the listed versions deletes exactly the
    alias-less versions of the collection. *)
Lemma sweep_listed_versions run r :
  NoDup (Wandb.ver_id <$> Wandb.versions r) →
  Wandb.versions (sweep (Wandb.list_versions "model" (model_collection run) r) r)
  = filter (λ v, ¬ useless run v) (Wandb.versions r).
Proof.
  intros Hnd. rewrite sweep_versions. apply filter_iff_in. intros v Hv.
  unfold swept_ids, Wandb.list_versions. rewrite list_elem_of_fmap.
  split.
  - intros Hid [Hcoll Hal]. apply Hid. exists v. split; [done |].
    by rewrite !list_elem_of_filter.
  - intros Hu (v' & Hid & Hv'). rewrite !list_elem_of_filter in Hv'.
    destruct Hv' as (Hal & Hcoll & Hin).
    assert (v = v') as <-
      by (by apply (NoDup_fmap_elem_inj Wandb.ver_id (Wandb.versions r))).
    by apply Hu.
Qed.

Lemma sweep_listed_calls run r :
  sweep_calls (Wandb.list_versions "model" (model_collection run) r)
  = (λ v, Wandb.CDelete (Wandb.ver_id v)) <$> filter (useless run) (Wandb.versions r).
Proof.
  unfold sweep_calls, Wandb.list_versions. f_equal.
  rewrite list_filter_filter. apply list_filter_iff. intros v. unfold useless. tauto.
Qed.

(** X7. [delete_useless_model] on an open run, with the service's version
    ids distinct: it returns; the versions left are the earlier ones, in
    order, without those of the run's model collection that carried no
    alias, so that a version with an alias and a version of another
    collection or type is never deleted; the calls are the listing and one
    [delete] for each version removed; the metric history, the local files
    and the standard output are as before. *)
Theorem delete_useless_model_effect :
  ∀ name run w,
    NoDup (Wandb.ver_id <$> Wandb.versions (w_remote w)) →
    ∃ w',
      delete_useless_model {| project_name := name; _run := Some run |} w
        = (Returned tt, w')
      ∧ Wandb.versions (w_remote w')
        = filter (λ v, ¬ useless run v) (Wandb.versions (w_remote w))
      ∧ calls_since w w'
        = Wandb.CArtifactVersions "model" (model_collection run)
          :: ((λ v, Wandb.CDelete (Wandb.ver_id v))
                <$> filter (useless run) (Wandb.versions (w_remote w)))
      ∧ Wandb.history (w_remote w') = Wandb.history (w_remote w)
      ∧ w_fs w' = w_fs w ∧ w_stdout w' = w_stdout w.
Proof.
  intros name run w Hnd. exists (swept run w).
  split; [apply delete_useless_model_run |]. split_and!; try done.
  - by apply sweep_listed_versions.
  - apply calls_since_app. by rewrite calls_swept, sweep_listed_calls.
  - apply sweep_history.
Qed.

Lemma delete_useless_model_effect_witness :
  ∃ w',
    delete_useless_model test_exp_logger used_world = (Returned tt, w')
    ∧ Wandb.ver_id <$> Wandb.versions (w_remote w') = [1; 2; 3]
    ∧ calls_since used_world w'
      = [Wandb.CArtifactVersions "model" "me/test_exp/model"; Wandb.CDelete 0].
Proof.
  destruct (delete_useless_model_effect (PyStr "test_exp")
              {| Wandb.run_entity := "me"; Wandb.run_project := "test_exp" |}
              used_world)
    as (w' & Hrun & Hvs & Hcalls & _).
  - by apply (bool_decide_unpack _).
  - exists w'. split; [exact Hrun |]. rewrite Hvs, Hcalls.
    split; vm_compute; reflexivity.
Defined.


Lemma drop_aliases_id type_name name aliases v :
  Wandb.ver_id (Wandb.drop_aliases type_name name aliases v) = Wandb.ver_id v.
Proof. unfold Wandb.drop_aliases. by destruct (Wandb.in_collection _ _ _). Qed.

Lemma drop_aliases_in_collection type_name name aliases t n v :
  Wandb.in_collection t n (Wandb.drop_aliases type_name name aliases v)
  = Wandb.in_collection t n v.
Proof. unfold Wandb.drop_aliases. by destruct (Wandb.in_collection type_name _ _). Qed.

(** Storing a version keeps the ids distinct. *)
Lemma store_artifact_well_numbered run a aliases r :
  well_numbered r → well_numbered (Wandb.store_artifact run a aliases r).
Proof.
  intros [Hnd Hlt].
  assert (Hids : Wandb.ver_id <$>
                   (Wandb.drop_aliases (Wandb.art_type a)
                      (Wandb.qualified_name run (Wandb.art_name a)) aliases
                      <$> Wandb.versions r)
                 = Wandb.ver_id <$> Wandb.versions r).
  { rewrite <- list_fmap_compose. apply list_fmap_ext. intros i v _.
    apply drop_aliases_id. }
  split.
  - cbn [Wandb.store_artifact Wandb.versions]. rewrite fmap_app, Hids.
    apply NoDup_app. split_and!; [done | | apply NoDup_singleton].
    intros id Hid Hnew. apply list_elem_of_singleton in Hnew. cbn in Hnew.
    apply list_elem_of_fmap in Hid as (v & -> & Hv). apply Hlt in Hv. lia.
  - intros v. cbn [Wandb.store_artifact Wandb.versions Wandb.next_id].
    rewrite elem_of_app, list_elem_of_singleton, list_elem_of_fmap.
    intros [(v0 & -> & Hv0)| ->].
    + rewrite drop_aliases_id. apply Hlt in Hv0. lia.
    + cbn. lia.
Qed.

(** X9. [log_model(finished=True)] on a well-numbered store, when the upload
    goes through: the version just uploaded is the last of the store and
    survives the cleanup that follows; before it come the earlier versions,
    those of the model collection having lost the aliases ["latest"] and
    ["finished-<stamp>"] to it, and of these the ones left without alias are
    deleted.  So an earlier version of the collection whose only aliases
    were those two is gone, and a version of another collection is there as
    it was. *)
Theorem log_model_finished_cleans_up :
  ∀ module_dir name run w d dirs names,
    let self := {| project_name := PyStr name; _run := Some run |} in
    well_numbered (w_remote w) →
    log_model_dir module_dir self w = (Returned d, w) →
    walk_first (w_fs w) d = Some (dirs, names) →
    all_regular (w_fs w) (model_files d names) = true →
    ∃ w',
      log_model module_dir self true w = (Returned tt, w')
      ∧ Wandb.versions (w_remote w')
        = filter (λ v, ¬ useless run v)
            (Wandb.drop_aliases "model" (model_collection run) (aliases_at true w)
               <$> Wandb.versions (w_remote w))
          ++ [finished_version run (model_files d names) w]
      ∧ (∀ v, v ∈ Wandb.versions (w_remote w) →
              Wandb.in_collection "model" (model_collection run) v = true →
              (∀ a, a ∈ Wandb.ver_aliases v → a ∈ aliases_at true w) →
              Wandb.ver_id v ∉ Wandb.ver_id <$> Wandb.versions (w_remote w'))
      ∧ (∀ v, v ∈ Wandb.versions (w_remote w) →
              Wandb.in_collection "model" (model_collection run) v = false →
              v ∈ Wandb.versions (w_remote w')).
Proof.
  intros module_dir name run w d dirs names self Hwn Hd Hwalk Hreg.
  subst self. rewrite log_model_dir_run in Hd.
  assert (Hdd : PosixPath.join module_dir ["log"; name] +:+ "/model" = d)
    by congruence.
  rewrite log_model_run, Hdd, Hwalk, Hreg. cbv zeta.
  rewrite delete_useless_model_run.
  set (a := model_artifact_of (model_files d names)).
  set (w1 := uploaded run a (aliases_at true w) w).
  pose proof (store_artifact_well_numbered run a (aliases_at true w) (w_remote w) Hwn)
    as [Hnd1 _].
  assert (Hvs : Wandb.versions (w_remote (swept run w1))
                = filter (λ v, ¬ useless run v)
                    (Wandb.drop_aliases "model" (model_collection run)
                       (aliases_at true w) <$> Wandb.versions (w_remote w))
                  ++ [finished_version run (model_files d names) w]).
  { change (w_remote (swept run w1))
      with (sweep (Wandb.list_versions "model" (model_collection run) (w_remote w1))
              (w_remote w1)).
    rewrite sweep_listed_versions by exact Hnd1.
    change (Wandb.versions (w_remote w1))
      with ((Wandb.drop_aliases "model" (model_collection run) (aliases_at true w)
               <$> Wandb.versions (w_remote w))
            ++ [finished_version run (model_files d names) w]).
    rewrite filter_app. f_equal.
    rewrite filter_cons_True; [done |]. intros [_ Hal]. done. }
  exists (swept run w1). split; [done |]. split; [exact Hvs |]. split.
  - intros v Hv Hcoll Hal. rewrite Hvs, fmap_app, not_elem_of_app. split.
    + intros Hid. apply list_elem_of_fmap in Hid as (v' & Hid & Hv').
      apply list_elem_of_filter in Hv' as [Hkeep Hv'].
      apply list_elem_of_fmap in Hv' as (v0 & -> & Hv0).
      rewrite drop_aliases_id in Hid.
      assert (v = v0) as <-
        by (destruct Hwn as [Hnd _];
            by apply (NoDup_fmap_elem_inj Wandb.ver_id (Wandb.versions (w_remote w)))).
      apply Hkeep. split; [by rewrite drop_aliases_in_collection |].
      unfold aliasless, Wandb.drop_aliases. rewrite Hcoll. cbn [Wandb.ver_aliases].
      rewrite (filter_iff_in _ (λ _, False)); [| intros x Hx; split; [|done];
        intros Hn; by apply Hn, Hal].
      clear. by induction (Wandb.ver_aliases v).
    + cbn. rewrite list_elem_of_singleton. destruct Hwn as [_ Hlt].
      apply Hlt in Hv. lia.
  - intros v Hv Hcoll. rewrite Hvs, elem_of_app. left.
    apply list_elem_of_filter. split.
    + intros [Hc _]. congruence.
    + apply list_elem_of_fmap. exists v. split; [|done].
      unfold Wandb.drop_aliases. by rewrite Hcoll.
Qed.

Lemma log_model_finished_cleans_up_witness :
  ∃ w',
    log_model "/src/utils" test_exp_logger true used_world = (Returned tt, w')
    ∧ ((λ v, (Wandb.ver_id v, Wandb.ver_aliases v)) <$> Wandb.versions (w_remote w'))
      = [(1, ["finished-01-05-2021-10-00-00"]); (2, []);
         (4, ["latest"; "finished-05-05-2021-22-14-31"])].
Proof.
  destruct (log_model_finished_cleans_up "/src/utils" "test_exp"
              {| Wandb.run_entity := "me"; Wandb.run_project := "test_exp" |}
              used_world "/src/utils/log/test_exp/model" [] ["ckpt.pt"])
    as (w' & Hrun & Hvs & _).
  - split; [by apply (bool_decide_unpack _) |].
    intros v Hv. vm_compute in Hv.
    repeat (apply elem_of_cons in Hv as [->|Hv]; [cbn; lia |]).
    by apply elem_of_nil in Hv.
  - reflexivity.
  - vm_compute. reflexivity.
  - vm_compute. reflexivity.
  - exists w'. split; [exact Hrun |]. rewrite Hvs. vm_compute. reflexivity.
Defined.

(** ** What [load_model] prints *)

Lemma insert_sorted_perm x l : PyString.insert_sorted x l ≡ₚ x :: l.
Proof.
  induction l as [|y l IH]; [done |]. cbn [PyString.insert_sorted].
  destruct (String.leb x y); [done |]. rewrite IH. apply Permutation_swap.
Qed.

Lemma sort_perm l : PyString.sort l ≡ₚ l.
Proof.
  induction l as [|x l IH]; [done |].
  unfold PyString.sort. cbn [foldr]. fold (PyString.sort l).
  by rewrite insert_sorted_perm, IH.
Qed.

Lemma insert_sorted_HdRel a x l :
  str_le a x → HdRel str_le a l → HdRel str_le a (PyString.insert_sorted x l).
Proof.
  intros Hax Hal. destruct l as [|y l]; [by constructor |].
  cbn [PyString.insert_sorted]. destruct (String.leb x y); constructor; [done |].
  by inversion Hal.
Qed.

Lemma insert_sorted_Sorted x l :
  Sorted str_le l → Sorted str_le (PyString.insert_sorted x l).
Proof.
  induction 1 as [|y l Hl IH Hhd]; [by repeat constructor |].
  cbn [PyString.insert_sorted]. destruct (String.leb x y) eqn:Hxy.
  - constructor; [by constructor | by constructor].
  - constructor; [done |]. apply insert_sorted_HdRel; [|done].
    destruct (String.leb_total x y) as [H|H]; [congruence | done].
Qed.

Lemma sort_Sorted l : Sorted str_le (PyString.sort l).
Proof.
  induction l as [|x l IH]; [constructor |].
  unfold PyString.sort. cbn [foldr]. by apply insert_sorted_Sorted.
Qed.

Lemma foldl_add_line_stdout names w :
  w_stdout (foldl add_line w names) = w_stdout w ++ names.
Proof.
  revert w. induction names as [|f names IH]; intros w.
  - by rewrite app_nil_r.
  - cbn [foldl]. rewrite IH. cbn. by rewrite <- app_assoc.
Qed.

Lemma write_files_stdout files root o w w' :
  for_each files (λ f, λ w,
      lift_fs_result (write_file (w_fs w) (PosixPath.join root [f])) w) w = (o, w') →
  w_stdout w' = w_stdout w.
Proof.
  revert w. induction files as [|f files IH]; intros w.
  - by intros [= _ <-].
  - cbn [for_each]. rewrite run_bind. unfold lift_fs_result at 1.
    destruct (write_file _ _) as [e|s]; [by intros [= _ <-] |].
    intros Hrest. by apply IH in Hrest.
Qed.

Lemma artifact_download_stdout files root o w w' :
  artifact_download files root w = (o, w') → w_stdout w' = w_stdout w.
Proof.
  unfold artifact_download. rewrite !run_bind. unfold lift_fs_effect.
  destruct (makedirs true _ _) as [[e|] s]; [by intros [= _ <-] |].
  intros Hw. by apply write_files_stdout in Hw.
Qed.

(** X10. When [load_model] returns, what it has printed since the
    evaluation of the expression is the listing of the model directory as
    the download left it, one name a line, in ascending code-point order:
    every non-directory entry of that directory once, those that were there
    before the download included. *)
Theorem load_model_prints_sorted_names :
  ∀ module_dir py_eval self model_api w d w',
    load_model module_dir py_eval self model_api w = (Returned d, w') →
    ∃ files w1 names printed,
      py_eval ("self._" +:+ PyString.slice_from 11 model_api) self w
        = (Returned (ObjArtifact files), w1)
      ∧ get_file_names_in_directory d w' = (Returned names, w')
      ∧ w_stdout w' = w_stdout w1 ++ printed
      ∧ printed ≡ₚ names
      ∧ Sorted str_le printed.
Proof.
  intros module_dir py_eval self model_api w d w'.
  unfold load_model. cbv zeta. rewrite run_bind.
  destruct (py_eval _ self w) as [[[files|]|e|] w1]; [|done..].
  rewrite run_bind, run_ret, run_bind.
  destruct self as [[| | | |name|] orun]; try done.
  rewrite log_model_dir_run.
  set (dir := PosixPath.join module_dir ["log"; name] +:+ "/model").
  rewrite run_bind.
  destruct (artifact_download files dir w1) as [[[]|e|] w2] eqn:Hdl; [|done..].
  rewrite run_bind, log_model_dir_run. fold dir.
  rewrite run_bind, get_file_names_run.
  destruct (walk_first (w_fs w2) dir) as [[dirs names]|] eqn:Hwalk; [|done].
  rewrite run_bind, for_each_print_run, log_model_dir_run. fold dir.
  intros [= <- <-]. exists files, w1, names, (PyString.sort names).
  split_and!; try done.
  - rewrite get_file_names_run.
    by rewrite (proj2 (foldl_add_line_calls _ _)), Hwalk.
  - rewrite foldl_add_line_stdout. f_equal. by eapply artifact_download_stdout.
  - apply sort_perm.
  - apply sort_Sorted.
Qed.

Lemma load_model_prints_sorted_names_witness :
  let w := world_of with_checkpoint in
  let api := "artifact = run.use_artifact('me/test_exp/model:latest')" in
  let w' := (load_model "/src/utils" eval_two_names test_exp_logger api w).2 in
  ∃ files w1 names printed,
    eval_two_names ("self._" +:+ PyString.slice_from 11 api) test_exp_logger w
      = (Returned (ObjArtifact files), w1)
    ∧ get_file_names_in_directory "/src/utils/log/test_exp/model" w'
      = (Returned names, w')
    ∧ w_stdout w' = w_stdout w1 ++ printed
    ∧ printed ≡ₚ names
    ∧ Sorted str_le printed.
Proof.
  intros w api w'.
  apply (load_model_prints_sorted_names "/src/utils" eval_two_names test_exp_logger
           api w "/src/utils/log/test_exp/model" w').
  vm_compute. reflexivity.
Defined.

(** ** A dangling link at the log path *)

(** Below a path that does not resolve nothing resolves. *)
Lemma descend_nothing_below on_link r c rest :
  c ≠ "" →
  (∀ dir t rest0, is_entry (on_link dir t rest0) = false →
                  is_entry (on_link dir t (rest0 ++ c :: rest)) = false) →
  ∀ comps cur,
    is_entry (descend on_link r true cur comps) = false →
    is_entry (descend on_link r true cur (comps ++ c :: rest)) = false.
Proof.
  intros Hc Hon. induction comps as [|c0 comps IH]; intros cur.
  - cbn [app descend]. destruct (get r cur) as [n|]; [done |]. done.
  - cbn [app descend]. destruct (get r cur) as [[| |es]|]; try done.
    destruct (bool_decide (c0 = "") || bool_decide (c0 = ".")); [apply IH |].
    destruct (bool_decide (c0 = "..")); [apply IH |].
    destruct (es !! c0) as [[|t|es']|].
    + apply IH.
    + cbn [orb]. apply Hon.
    + apply IH.
    + intros _.
      assert (all_empty (comps ++ c :: rest) = false) as ->; [|done].
      unfold all_empty. rewrite forallb_app. cbn [forallb].
      rewrite (bool_decide_eq_false_2 (c = "")) by done.
      by rewrite andb_false_r.
Qed.

Lemma resolve_from_nothing_below r c rest links :
  c ≠ "" →
  ∀ cur comps,
    is_entry (resolve_from links r true cur comps) = false →
    is_entry (resolve_from links r true cur (comps ++ c :: rest)) = false.
Proof.
  intros Hc. induction links as [|k IH]; intros cur comps;
    rewrite !resolve_from_unfold; apply descend_nothing_below; try done.
  intros dir t rest0. destruct (bool_decide (t = "")); [done |].
  rewrite app_assoc. apply IH.
Qed.

Lemma exists_below_nothing s P c :
  Forall plain P → P ≠ [] → plain c →
  exists_ s (canon_path P) = false →
  exists_ s (canon_path (P ++ [c])) = false.
Proof.
  intros HP HPne Hc. unfold exists_, stat, resolve.
  rewrite !bool_decide_eq_false_2 by apply canon_path_nonempty.
  rewrite !startswith_sep_canon_path.
  rewrite split_sep_canon_path by done.
  replace (canon_path P) with (abs_path P) by (by destruct P).
  rewrite split_sep_abs_path by done.
  change ("" :: P ++ [c]) with (("" :: P) ++ [c]).
  apply (resolve_from_nothing_below _ c []). apply Hc.
Qed.

(** [os.makedirs] on a name that a symbolic link holds. *)
Lemma os_makedirs_on_link w P es c t :
  Forall plain P → plain c →
  get (root (w_fs w)) P = Some (Dir es) → es !! c = Some (Symlink t) →
  os_makedirs (canon_path (P ++ [c])) w = (Raised FileExistsError, w).
Proof.
  intros HP Hc Hdir Hn. unfold os_makedirs, makedirs.
  cbn [makedirs_go]. rewrite split_canon_path by done.
  rewrite (bool_decide_eq_false_2 (c = "")) by apply Hc.
  unfold exists_ at 1, stat. rewrite (resolve_dir _ _ _ HP Hdir).
  rewrite andb_false_r. unfold mkdir.
  rewrite strip_trailing_canon_path
    by (apply Forall_app; split; [done | by constructor]).
  unfold lstat. rewrite (resolve_child _ _ _ HP Hdir) by auto. rewrite Hn.
  cbn [negb orb]. unfold lift_fs_effect.
  by destruct w.
Qed.

(** X11. A dangling symbolic link at the log path stops the constructor:
    [os.path.exists] is false for the link and for the two paths below it,
    so [remove_file_dir] removes nothing, and [os.makedirs] then finds the
    name taken.  The constructor raises [FileExistsError]; the link is
    still there, nothing has been created and no run is opened. *)
Theorem init_refuses_a_dangling_link :
  ∀ (B : list string) (name : string) (config : gmap string pyval) (w : world)
    (esg : gmap string node) (t : string),
    Forall plain B → plain name →
    config !! "logger_name" = Some (PyStr name) →
    get (root (w_fs w)) (B ++ ["log"]) = Some (Dir esg) →
    esg !! name = Some (Symlink t) →
    exists_ (w_fs w) (canon_path (B ++ ["log"; name])) = false →
    __init__ (canon_path B) config w = (Raised FileExistsError, w).
Proof.
  intros B name config w esg t HB Hname Hcfg Hlg Hn Hex.
  pose proof (plain_Lg B HB) as HLg. pose proof (plain_L B name HB Hname) as HL.
  change (B ++ ["log"; name]) with (B ++ ["log"] ++ [name]) in Hex.
  rewrite app_assoc in Hex.
  assert (HLne : (B ++ ["log"]) ++ [name] ≠ []) by (by destruct (B ++ ["log"])).
  unfold __init__. rewrite run_bind. unfold py_getitem. rewrite Hcfg, run_ret.
  rewrite run_bind. unfold _initialize_log_dir.
  rewrite run_bind, run_bind, (log_dataset_dir_canon B name HB Hname).
  rewrite remove_file_dir_missing
    by (apply exists_below_nothing; auto using plain_dataset).
  rewrite run_bind, run_bind, (log_model_dir_canon B name HB Hname).
  rewrite remove_file_dir_missing
    by (apply exists_below_nothing; auto using plain_model).
  rewrite run_bind, run_bind, (log_dir_canon B name HB Hname).
  rewrite remove_file_dir_missing by done.
  rewrite run_bind, run_bind, (log_dir_canon B name HB Hname).
  by rewrite (os_makedirs_on_link w (B ++ ["log"]) esg name t).
Qed.

Lemma init_refuses_a_dangling_link_witness :
  __init__ "/src/utils" {["logger_name" := PyStr "test_exp"]}
    (world_of dangling_log_dir)
  = (Raised FileExistsError, world_of dangling_log_dir).
Proof.
  apply (init_refuses_a_dangling_link ["src"; "utils"] "test_exp" _ _
           (<["test_exp" := Symlink "/mnt/gone"]> ∅) "/mnt/gone").
  - by repeat (constructor || split).
  - by repeat split.
  - reflexivity.
  - vm_compute. reflexivity.
  - reflexivity.
  - vm_compute. reflexivity.
Defined.

(** ** A regular file in the way *)




(** ** Construction: what the reset leaves alone *)









Section ResetFrame.
Variables (B : list string) (name : string).
Hypothesis HB : Forall plain B.
Hypothesis Hname : plain name.

Let Lg := B ++ ["log"].
Let L := Lg ++ [name].
Let self := {| project_name := PyStr name; _run := None |}.






End ResetFrame.



(** ** Construction, then the first upload *)



(** ** A log path that is a link to a directory *)


Section LinkedLogDir.
Variables (Lg T : list string) (name : string).
Hypothesis HLg : Forall plain Lg.
Hypothesis Hname : plain name.
Hypothesis HT : Forall plain T.
Hypothesis HTLg : ¬ T `prefix_of` Lg.
Hypothesis HLgT : ¬ Lg `prefix_of` T.










End LinkedLogDir.



(** ** What [log_model] can upload *)

(** The enumeration of a real directory. *)
Lemma walk_first_real s P es :
  Forall plain P → get (root s) P = Some (Dir es) →
  (∀ c, is_Some (es !! c) → plain c) →
  ∃ dirs names,
    walk_first s (canon_path P) = Some (dirs, names)
    ∧ ∀ c, c ∈ names ↔ is_Some (es !! c) ∧ isdir s (canon_path (P ++ [c])) = false.
Proof.
  intros HP Hdir Hes. unfold walk_first, stat.
  rewrite (resolve_dir _ _ _ HP Hdir). cbv zeta.
  eexists _, _. split; [done |].
  intros c. rewrite list_elem_of_fmap. split.
  - intros ([c' n] & -> & Hin). apply list_elem_of_filter in Hin as [Hnd Hin].
    apply elem_of_map_to_list in Hin. cbn [fst snd] in *.
    split; [by eexists |].
    by rewrite <- (entry_is_dir_isdir _ _ _ _ _ HP Hdir (Hes _ (mk_is_Some _ _ Hin)) Hin).
  - intros [[n Hn] Hnd]. exists (c, n). split; [done |].
    apply list_elem_of_filter. split; [| by apply elem_of_map_to_list].
    cbn [fst snd].
    by rewrite (entry_is_dir_isdir _ _ _ _ _ HP Hdir (Hes _ (mk_is_Some _ _ Hn)) Hn).
Qed.

(** X17. [log_model] on an open run whose model directory is a real
    directory: the call goes through exactly when every entry of that
    directory is a directory, a regular file or a link that leads to one of
    the two.  A single entry that is neither (a dangling symbolic link)
    makes [add_file] raise [ValueError]: nothing is uploaded and the world
    is as before. *)
Theorem log_model_needs_regular_files :
  ∀ (B : list string) (name : string) (run : Wandb.run) (finished : bool)
    (w : world) (es : gmap string node),
    let self := {| project_name := PyStr name; _run := Some run |} in
    let M := ((B ++ ["log"]) ++ [name]) ++ ["model"] in
    let usable := ∀ c, is_Some (es !! c) →
                       isdir (w_fs w) (canon_path (M ++ [c])) = true
                       ∨ isfile (w_fs w) (canon_path (M ++ [c])) = true in
    Forall plain B → plain name →
    get (root (w_fs w)) M = Some (Dir es) →
    (∀ c, is_Some (es !! c) → plain c) →
    (usable → (log_model (canon_path B) self finished w).1 = Returned tt)
    ∧ (¬ usable →
       log_model (canon_path B) self finished w = (Raised ValueError, w)).
Proof.
  intros B name run finished w es self M usable HB Hname Hdir Hes.
  assert (HM : Forall plain M).
  { apply Forall_app. split; [by apply plain_L |].
    constructor; [apply plain_model | done]. }
  subst self. rewrite log_model_run. cbv zeta.
  rewrite (join_log_canon B name HB Hname).
  assert (Hd : canon_path ((B ++ ["log"]) ++ [name]) +:+ "/model" = canon_path M)
    by (apply (canon_path_extend _ "model"); by destruct B).
  rewrite Hd.
  destruct (walk_first_real (w_fs w) M es HM Hdir Hes)
    as (dirs & names & -> & Hnames).
  assert (Hreg : all_regular (w_fs w) (model_files (canon_path M) names) = true
                 ↔ usable).
  { unfold all_regular, model_files. rewrite forallb_forall. split.
    - intros Hall c Hc.
      destruct (isdir (w_fs w) (canon_path (M ++ [c]))) eqn:Hisdir; [by left |].
      right. rewrite <- (join_step_canon_path M c HM (Hes c Hc)).
      apply Hall. apply list_elem_of_In, list_elem_of_fmap. exists c.
      split; [done |]. by apply Hnames.
    - intros Hu p Hp. apply list_elem_of_In, list_elem_of_fmap in Hp as (c & -> & Hc).
      apply Hnames in Hc as [Hc Hnd].
      rewrite (join_step_canon_path M c HM (Hes c Hc)).
      destruct (Hu c Hc) as [Hisdir|Hisfile]; [congruence | done]. }
  destruct (all_regular _ _).
  - split; [| intros Hnu; destruct Hnu; by apply Hreg].
    intros _. destruct finished; [| done].
    by rewrite delete_useless_model_run.
  - split; [| done]. intros Hu. apply Hreg in Hu. done.
Qed.

Lemma log_model_needs_regular_files_witness :
  log_model "/src/utils" test_exp_logger false (world_of with_dangling_checkpoint)
  = (Raised ValueError, world_of with_dangling_checkpoint).
Proof.
  apply (log_model_needs_regular_files ["src"; "utils"] "test_exp"
           {| Wandb.run_entity := "me"; Wandb.run_project := "test_exp" |} false
           (world_of with_dangling_checkpoint)
           (<["ckpt.pt" := File]> (<["best.pt" := Symlink "/mnt/gone.pt"]> ∅))).
  - by repeat (constructor || split).
  - by repeat split.
  - vm_compute. reflexivity.
  - intros c [n Hn].
    destruct (decide (c = "ckpt.pt")) as [->|?]; [by repeat split |].
    rewrite lookup_insert_ne in Hn by done.
    destruct (decide (c = "best.pt")) as [->|?]; [by repeat split |].
    by rewrite lookup_insert_ne in Hn.
  - intros Hu. destruct (Hu "best.pt") as [H|H].
    + by rewrite lookup_insert_ne, lookup_insert_eq.
    + vm_compute in H. discriminate H.
    + vm_compute in H. discriminate H.
Defined.
